(** * Sugipq: the number formatting helpers of the dashboard

    A shallow embedding of the JavaScript number formatting module
    (formatoNumero, formatoMoneda, formatoPorcentaje, formatoCompacto and
    formatearElementos) and of the ECMAScript primitives it calls.

    JavaScript Numbers are IEEE 754 binary64 values: they are modelled by
    Rocq's primitive [float], whose operations are the hardware ones.  The
    mathematical value of a Number is read through [Prim2SF].  Strings are
    byte strings (UTF-8).  Exceptions are explicit: an operation returns a
    [Completion], either [Normal] with a value or [Throw] with an error. *)

From Stdlib Require Import ZArith String Ascii List Lia Floats.
From Stdlib Require Uint63.
From stdpp Require Import base option list gmap strings.
Import ListNotations.

Local Open Scope Z_scope.
Set Warnings "-inexact-float".
Set Default Proof Using "Type".

(** ** Completions: normal results and thrown exceptions *)

Inductive JsError : Type :=
  | RangeError
  | TypeError.

Inductive Completion (A : Type) : Type :=
  | Normal (a : A)
  | Throw (e : JsError).

Arguments Normal {A} a.
Arguments Throw {A} e.

#[global] Instance Completion_ret : MRet Completion := fun A a => Normal a.

#[global] Instance Completion_bind : MBind Completion := fun A B k m =>
  match m with
  | Normal a => k a
  | Throw e => Throw e
  end.

(** [try { body } catch (e) { handler }] *)
Definition try_catch {A : Type} (body : Completion A) (handler : JsError -> Completion A)
  : Completion A :=
  match body with
  | Normal a => Normal a
  | Throw e => handler e
  end.

(** ** Values *)

(** The primitive values a caller can hand to the formatters: the scalars of
    a JSON payload, an absent field and the Numbers the module computes. *)
Inductive JsValue : Type :=
  | VUndefined
  | VNull
  | VBool (b : bool)
  | VNumber (x : float)
  | VString (s : string).

(** ** Characters and decimal digits *)

Definition chars (s : string) : list ascii := list_ascii_of_string s.
Definition text (l : list ascii) : string := string_of_list_ascii l.

Definition code (c : ascii) : Z := Z.of_nat (nat_of_ascii c).

Definition is_digit (c : ascii) : bool := (48 <=? code c) && (code c <=? 57).

Definition digit_value (c : ascii) : Z := code c - 48.

Definition digit_char (d : Z) : ascii := ascii_of_nat (Z.to_nat (48 + d)).

(** Big-endian value of a digit string. *)
Definition digits_value (ds : list ascii) : Z :=
  fold_left (fun acc c => 10 * acc + digit_value c) ds 0.

Fixpoint digits_fuel (fuel : nat) (n : Z) (acc : list ascii) : list ascii :=
  match fuel with
  | O => acc
  | S fuel' =>
      let acc' := digit_char (n mod 10) :: acc in
      if n <? 10 then acc' else digits_fuel fuel' (n / 10) acc'
  end.

(** The decimal digits of a non-negative integer, most significant first,
    with no leading zero ("0" for zero).  [Z.log2 n + 1] bounds their number. *)
Definition decimal_digits (n : Z) : list ascii :=
  digits_fuel (S (Z.to_nat (Z.log2 n))) n [].

Definition zeros (k : nat) : list ascii := replicate k "0"%char.

(** ** Reading a decimal literal as a Number *)

(** The Number nearest to [sign * m * 10^e] (round to nearest, ties to even),
    as ECMAScript's StringNumericValue rounds a decimal literal.  The
    standard library's [SFdiv] is the correctly rounded binary64 quotient of
    two integers. *)
Definition float_of_decimal (negative : bool) (m e : Z) : float :=
  if m =? 0 then (if negative then neg_zero else zero)
  else if 0 <=? e
  then SF2Prim (SFdiv prec emax (S754_finite negative (Z.to_pos (m * 10 ^ e)) 0)
                                (S754_finite false 1 0))
  else SF2Prim (SFdiv prec emax (S754_finite negative (Z.to_pos m) 0)
                                (S754_finite false (Z.to_pos (10 ^ (- e))) 0)).

(** ** parseFloat and parseInt on strings *)

Definition is_ascii_space (c : ascii) : bool :=
  ((9 <=? code c) && (code c <=? 13)) || (code c =? 32).

(** The non-ASCII WhiteSpace and LineTerminator code points, in UTF-8:
    U+00A0; U+1680, U+2000..U+200A, U+2028, U+2029, U+202F, U+205F, U+3000
    and U+FEFF. *)
Definition is_space2 (a b : ascii) : bool := (code a =? 194) && (code b =? 160).

Definition is_space3 (a b c : ascii) : bool :=
  ((code a =? 225) && (code b =? 154) && (code c =? 128))
  || ((code a =? 226) && (code b =? 128)
      && (((128 <=? code c) && (code c <=? 138))
          || (code c =? 168) || (code c =? 169) || (code c =? 175)))
  || ((code a =? 226) && (code b =? 129) && (code c =? 159))
  || ((code a =? 227) && (code b =? 128) && (code c =? 128))
  || ((code a =? 239) && (code b =? 187) && (code c =? 191)).

(** TrimString(s, start) *)
Fixpoint trim_start (l : list ascii) : list ascii :=
  match l with
  | [] => []
  | a :: l1 =>
      if is_ascii_space a then trim_start l1
      else match l1 with
           | [] => l
           | b :: l2 =>
               if is_space2 a b then trim_start l2
               else match l2 with
                    | [] => l
                    | c :: l3 => if is_space3 a b c then trim_start l3 else l
                    end
           end
  end.

(** The longest run of decimal digits at the head of the input, and the rest. *)
Fixpoint take_digits (l : list ascii) : list ascii * list ascii :=
  match l with
  | c :: l' =>
      if is_digit c
      then let '(ds, r) := take_digits l' in (c :: ds, r)
      else ([], l)
  | [] => ([], [])
  end.

Definition scan_sign (l : list ascii) : bool * list ascii :=
  match l with
  | c :: r =>
      if (c =? "-")%char then (true, r)
      else if (c =? "+")%char then (false, r)
      else (false, l)
  | [] => (false, l)
  end.

(** An optional ExponentPart: its value and the input after it.  An "e" that
    no digit follows is not part of the literal. *)
Definition scan_exponent (l : list ascii) : Z * list ascii :=
  match l with
  | c :: r =>
      if (c =? "e")%char || (c =? "E")%char then
        let '(neg, r1) := scan_sign r in
        let '(ds, r2) := take_digits r1 in
        match ds with
        | [] => (0, l)
        | _ => ((if neg : bool then - digits_value ds else digits_value ds), r2)
        end
      else (0, l)
  | [] => (0, l)
  end.

(** What the longest StrDecimalLiteral prefix denotes. *)
Inductive Literal : Type :=
  | LitInfinity (negative : bool)
  | LitDecimal (negative : bool) (int frac : list ascii) (exponent : Z).

Fixpoint starts_with (p l : list ascii) : option (list ascii) :=
  match p, l with
  | [], _ => Some l
  | a :: p', b :: l' => if (a =? b)%char then starts_with p' l' else None
  | _ :: _, [] => None
  end.

(** StrUnsignedDecimalLiteral: Infinity, digits with an optional fraction, or
    a fraction alone; then an optional exponent. *)
Definition scan_unsigned (negative : bool) (l : list ascii)
  : option (Literal * list ascii) :=
  match starts_with (chars "Infinity") l with
  | Some r => Some (LitInfinity negative, r)
  | None =>
      let '(int, r1) := take_digits l in
      let '(frac, r2) :=
        match r1 with
        | c :: r => if (c =? ".")%char then take_digits r else ([], r1)
        | [] => ([], r1)
        end in
      match int, frac with
      | [], [] => None
      | _, _ =>
          let '(e, r3) := scan_exponent r2 in
          Some (LitDecimal negative int frac e, r3)
      end
  end.

Definition scan_literal (l : list ascii) : option (Literal * list ascii) :=
  let '(negative, r) := scan_sign l in scan_unsigned negative r.

Definition literal_value (lit : Literal) : float :=
  match lit with
  | LitInfinity negative => if negative then neg_infinity else infinity
  | LitDecimal negative int frac e =>
      float_of_decimal negative (digits_value (int ++ frac))
                       (e - Z.of_nat (length frac))
  end.

(** parseFloat on a string: the value of the longest prefix of the trimmed
    string that is a StrDecimalLiteral, NaN when there is none. *)
Definition parseFloat_string (s : string) : float :=
  match scan_literal (trim_start (chars s)) with
  | Some (lit, _) => literal_value lit
  | None => nan
  end.

Definition is_hex_digit (c : ascii) : bool :=
  is_digit c || ((97 <=? code c) && (code c <=? 102))
             || ((65 <=? code c) && (code c <=? 70)).

Definition hex_value (c : ascii) : Z :=
  if is_digit c then code c - 48
  else if 97 <=? code c then code c - 87 else code c - 55.

Fixpoint take_hex_digits (l : list ascii) : list ascii * list ascii :=
  match l with
  | c :: l' =>
      if is_hex_digit c
      then let '(ds, r) := take_hex_digits l' in (c :: ds, r)
      else ([], l)
  | [] => ([], [])
  end.

(** parseInt on a string with no radix argument: [None] is NaN, [Some n] the
    integer read.  The result is an integer-valued Number; the module only
    compares it with 0 and hands it on as a digit count (compared with 0 and
    100), and those comparisons agree on an integer and its nearest Number. *)
Definition parseInt_string (s : string) : option Z :=
  let '(negative, r) := scan_sign (trim_start (chars s)) in
  let '(radix16, r1) :=
    match r with
    | a :: b :: r' =>
        if (a =? "0")%char && ((b =? "x")%char || (b =? "X")%char)
        then (true, r') else (false, r)
    | _ => (false, r)
    end in
  let n :=
    if radix16 : bool
    then match fst (take_hex_digits r1) with
         | [] => None
         | ds => Some (fold_left (fun acc c => 16 * acc + hex_value c) ds 0)
         end
    else match fst (take_digits r1) with
         | [] => None
         | ds => Some (digits_value ds)
         end in
  match n with
  | Some v => Some (if negative : bool then - v else v)
  | None => None
  end.

(** ** The mathematical value of a finite Number *)

(** A finite non-zero Number is [m * 2^e]; it is kept as the fraction
    [exact_num m e / exact_den e] of two positive integers. *)
Definition exact_num (m : positive) (e : Z) : Z :=
  if 0 <=? e then Z.pos m * 2 ^ e else Z.pos m.

Definition exact_den (e : Z) : Z :=
  if 0 <=? e then 1 else 2 ^ (- e).

(** The integer nearest to [p / q * 10^f], the larger one at a tie: the
    "let n be an integer for which n / 10^f - x is as close to zero as
    possible; if there are two such n, pick the larger n" of
    Number.prototype.toFixed and of ECMA-402's ToRawFixed (half-expand). *)
Definition round_scaled (p q : Z) (f : Z) : Z :=
  (2 * p * 10 ^ f + q) / (2 * q).

(** Digits of [n] split [f] places from the right by a separator, padded with
    leading zeros so that an integer digit remains. *)
Definition fixed_digits (n : Z) (f : nat) : list ascii * list ascii :=
  let m := decimal_digits n in
  let m := zeros (S f - length m) ++ m in
  (take (length m - f) m, drop (length m - f) m).

(** ** Number::toString *)

Fixpoint scale_up (fuel : nat) (p q : Z) (j : Z) : Z :=
  match fuel with
  | O => j
  | S fuel' => if q <=? p then j else scale_up fuel' (10 * p) q (j + 1)
  end.

(** The [n] with [10^(n-1) <= p/q < 10^n], for positive [p] and [q]. *)
Definition decimal_exponent (p q : Z) : Z :=
  if q <=? p then Z.of_nat (length (decimal_digits (p / q)))
  else 1 - scale_up (S (Z.to_nat (Z.log2 q))) (10 * p) q 1.

(** The two [k]-digit neighbours of [p/q] at decimal exponent [n]: the
    integers [s], [s+1] with [s <= p/q * 10^(k-n) < s+1], and whether the
    lower one is at least as near (the even one at a tie). *)
Definition neighbours (p q n k : Z) : Z * bool :=
  let '(p', q') := if 0 <=? k - n then (p * 10 ^ (k - n), q) else (p, q * 10 ^ (n - k)) in
  let s := p' / q' in
  let r := p' mod q' in
  (s, (2 * r <? q') || ((2 * r =? q') && Z.even s)).

Fixpoint shortest_search (fuel : nat) (x : float) (p q n k : Z) : Z * Z :=
  let '(s, lower_nearer) := neighbours p q n k in
  let ok_lo := (float_of_decimal false s (n - k) =? x)%float in
  let ok_hi := (float_of_decimal false (s + 1) (n - k) =? x)%float in
  match fuel with
  | O => (if lower_nearer then s else s + 1, k)
  | S fuel' =>
      if ok_lo && (lower_nearer || negb ok_hi) then (s, k)
      else if ok_hi then (s + 1, k)
      else shortest_search fuel' x p q n (k + 1)
  end.

(** Step 5 of Number::toString for a positive finite [x = p/q]: the digits
    of the shortest decimal that reads back as [x], and the exponent [n]
    (the value is [0.d1d2...dk * 10^n]).  Seventeen digits always suffice. *)
Definition shortest_digits (x : float) (p q : Z) : list ascii * Z :=
  let n := decimal_exponent p q in
  let '(s, k) := shortest_search 16 x p q n 1 in
  if s =? 10 ^ k then (decimal_digits (s / 10), n + 1) else (decimal_digits s, n).

(** Steps 6 to 12: the layout of the digits. *)
Definition layout_digits (ds : list ascii) (n : Z) : list ascii :=
  let k := Z.of_nat (length ds) in
  if (-5 <=? n) && (n <=? 21) then
    if k <=? n then ds ++ zeros (Z.to_nat (n - k))
    else if 0 <? n then take (Z.to_nat n) ds ++ "."%char :: drop (Z.to_nat n) ds
    else "0"%char :: "."%char :: zeros (Z.to_nat (- n)) ++ ds
  else
    let e := n - 1 in
    let exponent := "e"%char :: (if e <? 0 then "-"%char else "+"%char)
                              :: decimal_digits (Z.abs e) in
    match ds with
    | [] => exponent
    | d :: [] => d :: exponent
    | d :: rest => d :: "."%char :: rest ++ exponent
    end.

Definition NumberToString_chars (x : float) : list ascii :=
  match Prim2SF x with
  | S754_nan => chars "NaN"
  | S754_zero _ => chars "0"
  | S754_infinity negative =>
      if negative then chars "-Infinity" else chars "Infinity"
  | S754_finite negative m e =>
      let '(ds, n) := shortest_digits (abs x) (exact_num m e) (exact_den e) in
      (if negative then ["-"%char] else []) ++ layout_digits ds n
  end.

(** Number::toString(x, 10) *)
Definition NumberToString (x : float) : string := text (NumberToString_chars x).

(** ToString on the primitive values. *)
Definition ToString (v : JsValue) : string :=
  match v with
  | VUndefined => "undefined"
  | VNull => "null"
  | VBool true => "true"
  | VBool false => "false"
  | VNumber x => NumberToString x
  | VString s => s
  end.

(** ** parseFloat and parseInt *)

(** parseFloat(v) is [parseFloat_string (ToString v)].  On a Number argument
    the round trip through Number::toString gives the Number back (the
    digits are chosen so that they read back as the same value), except that
    -0 prints as "0" and so comes back as +0; the model takes that
    result directly. *)
Definition parseFloat (v : JsValue) : float :=
  match v with
  | VNumber x =>
      match Prim2SF x with
      | S754_zero _ => zero
      | _ => x
      end
  | _ => parseFloat_string (ToString v)
  end.

(** parseInt on the result of getAttribute: [None] is null. *)
Definition parseInt (a : option string) : option Z :=
  parseInt_string (default "null"%string a).

(** [x || 0] on a Number: NaN, +0 and -0 are falsy. *)
Definition or_zero (x : float) : float :=
  match Prim2SF x with
  | S754_nan | S754_zero _ => zero
  | _ => x
  end.

(** ** Number.prototype.toFixed *)

Definition sign_chars (negative : bool) : list ascii :=
  if negative then ["-"%char] else [].

Definition toFixed (x : float) (fractionDigits : Z) : Completion string :=
  if (fractionDigits <? 0) || (100 <? fractionDigits) then Throw RangeError
  else
    match Prim2SF x with
    | S754_nan | S754_infinity _ => Normal (NumberToString x)
    | S754_zero _ =>
        let '(a, b) := fixed_digits 0 (Z.to_nat fractionDigits) in
        Normal (text (a ++ match b with [] => [] | _ => "."%char :: b end))
    | S754_finite negative m e =>
        let p := exact_num m e in
        let q := exact_den e in
        if 10 ^ 21 * q <=? p
        then Normal (text (sign_chars negative ++ NumberToString_chars (abs x)))
        else
          let n := round_scaled p q fractionDigits in
          let '(a, b) := fixed_digits n (Z.to_nat fractionDigits) in
          Normal (text (sign_chars negative
                          ++ a ++ match b with [] => [] | _ => "."%char :: b end))
    end.

(** ** Number.prototype.toLocaleString for es-CO *)

(** Groups of three digits from the right; the leading group takes what is
    left (one to three digits). *)
Fixpoint groups_of_three (fuel : nat) (ds : list ascii) : list (list ascii) :=
  match fuel with
  | O => [ds]
  | S fuel' =>
      if (length ds <=? 3)%nat then [ds]
      else groups_of_three fuel' (take (length ds - 3) ds) ++ [drop (length ds - 3) ds]
  end.

Fixpoint join_with (sep : ascii) (gs : list (list ascii)) : list ascii :=
  match gs with
  | [] => []
  | [g] => g
  | g :: gs' => g ++ sep :: join_with sep gs'
  end.

Definition group_integer (ds : list ascii) : list ascii :=
  join_with "."%char (groups_of_three (length ds) ds).

Fixpoint strip_zeros (cut : nat) (rev_frac : list ascii) : list ascii :=
  match cut, rev_frac with
  | S cut', c :: r => if (c =? "0")%char then strip_zeros cut' r else rev_frac
  | _, _ => rev_frac
  end.

(** Modelled from the spec: the host's locale data for es-CO is not part of
    the repository.  Per the specification the thousands separator is "."
    and the decimal separator is ","; integer digits are grouped by three
    from the first thousand on (the module's own examples print "1.234,56").
    The digits are those of ECMA-402's ToRawFixed: the value rounded to
    [maxFD] fraction digits, then up to [maxFD - minFD] trailing zeros
    removed. *)
Definition format_es_CO (negative : bool) (p q : Z) (minFD maxFD : nat) : list ascii :=
  let n := round_scaled p q (Z.of_nat maxFD) in
  let '(a, b) := fixed_digits n maxFD in
  let b := rev (strip_zeros (maxFD - minFD) (rev b)) in
  sign_chars negative ++ group_integer a
    ++ match b with [] => [] | _ => ","%char :: b end.

(** [x.toLocaleString('es-CO', { minimumFractionDigits: minFD,
    maximumFractionDigits: maxFD })].  Each digit option outside 0..100, or a
    minimum above the maximum, is a RangeError. *)
Definition toLocaleString_es_CO (x : float) (minFD maxFD : Z) : Completion string :=
  if (minFD <? 0) || (100 <? minFD) then Throw RangeError
  else if (maxFD <? 0) || (100 <? maxFD) then Throw RangeError
  else if maxFD <? minFD then Throw RangeError
  else
    match Prim2SF x with
    | S754_nan => Normal "NaN"%string
    | S754_infinity negative => Normal (text (sign_chars negative ++ chars "∞"))
    | S754_zero negative =>
        Normal (text (format_es_CO negative 0 1 (Z.to_nat minFD) (Z.to_nat maxFD)))
    | S754_finite negative m e =>
        Normal (text (format_es_CO negative (exact_num m e) (exact_den e)
                                   (Z.to_nat minFD) (Z.to_nat maxFD)))
    end.

(** ** The module: formatoNumero, formatoMoneda, formatoPorcentaje,
       formatoCompacto *)

(** An optional argument is [None] when the caller leaves it out; the
    parameter then takes its default.  [decimales] is a count of digits: an
    integer-valued Number, kept as an integer. *)

(** [function formatoNumero(numero, decimales = 0)] *)
Definition formatoNumero (numero : JsValue) (decimales : option Z) : Completion string :=
  let decimales := default 0 decimales in
  try_catch
    (let numero := or_zero (parseFloat numero) in
     if 0 <? decimales
     then toLocaleString_es_CO numero decimales decimales
     else toLocaleString_es_CO numero 0 0)
    (fun _ => Normal "0"%string).

(** [function formatoMoneda(numero, simbolo = '$', decimales = 0)] *)
Definition formatoMoneda (numero : JsValue) (simbolo : option string)
    (decimales : option Z) : Completion string :=
  let simbolo := default "$"%string simbolo in
  let decimales := default 0 decimales in
  numeroFormateado ← formatoNumero numero (Some decimales);
  mret (simbolo +:+ numeroFormateado).

(** [function formatoPorcentaje(numero, decimales = 1)] *)
Definition formatoPorcentaje (numero : JsValue) (decimales : option Z) : Completion string :=
  let decimales := default 1 decimales in
  try_catch
    (let numero := or_zero (parseFloat numero) in
     let porcentaje := if (numero <? 1)%float then (numero * 100)%float else numero in
     s ← toLocaleString_es_CO porcentaje decimales decimales;
     mret (s +:+ "%"))
    (fun _ => Normal "0%"%string).

(** [function formatoCompacto(numero)] *)
Definition formatoCompacto (numero : JsValue) : Completion string :=
  try_catch
    (let numero := or_zero (parseFloat numero) in
     if (1000000000 <=? numero)%float then
       s ← toFixed (numero / 1000000000)%float 1; mret (s +:+ "B")
     else if (1000000 <=? numero)%float then
       s ← toFixed (numero / 1000000)%float 1; mret (s +:+ "M")
     else if (1000 <=? numero)%float then
       s ← toFixed (numero / 1000)%float 1; mret (s +:+ "K")
     else mret (NumberToString numero))
    (fun _ => Normal "0"%string).

(** ** The declarative pass: formatearElementos *)

(** An element of the page: its attributes and its text content.  The
    marked elements are taken to be leaves holding their number as text, as
    in the module's usage notes ([<span data-format="numero">100000</span>]),
    so that each one owns its text.  Pages whose elements nest are modelled
    as trees further down, and the two passes agree on a page of leaves. *)
Record Element : Type := mkElement {
  attributes : gmap string string;
  textContent : string;
}.

(** [elemento.getAttribute(name)]: [None] is null. *)
Definition getAttribute (elemento : Element) (name : string) : option string :=
  attributes elemento !! name.

(** [elemento.textContent = s] *)
Definition set_textContent (elemento : Element) (s : string) : Element :=
  {| attributes := attributes elemento; textContent := s |}.

(** [document.querySelectorAll('[data-format]')]: the positions, in document
    order, of the elements that carry the attribute. *)
Definition querySelectorAll_data_format (document : list Element) : list nat :=
  filter (fun i => is_Some (document !! i ≫= fun e => getAttribute e "data-format"))
         (seq 0 (length document)).

(** [a || '$'] on the result of getAttribute: null and the empty string are
    falsy. *)
Definition or_dollar (a : option string) : string :=
  match a with
  | Some s => if (s =? "")%string then "$"%string else s
  | None => "$"%string
  end.

(** The body of the arrow function passed to forEach.  The switch has no
    default case; a null [formato] matches no case, like the empty string. *)
Definition formatearElemento (elemento : Element) : Completion Element :=
  let formato := default ""%string (getAttribute elemento "data-format") in
  let valor := or_zero (parseFloat (VString (textContent elemento))) in
  let decimales := default 0 (parseInt (getAttribute elemento "data-decimales")) in
  if (formato =? "numero")%string then
    s ← formatoNumero (VNumber valor) (Some decimales);
    mret (set_textContent elemento s)
  else if (formato =? "moneda")%string then
    let simbolo := or_dollar (getAttribute elemento "data-simbolo") in
    s ← formatoMoneda (VNumber valor) (Some simbolo) (Some decimales);
    mret (set_textContent elemento s)
  else if (formato =? "porcentaje")%string then
    s ← formatoPorcentaje (VNumber valor) (Some decimales);
    mret (set_textContent elemento s)
  else if (formato =? "compacto")%string then
    s ← formatoCompacto (VNumber valor);
    mret (set_textContent elemento s)
  else mret elemento.

(** One step of forEach: the callback runs on the element at position [i]
    and its effect is written back to the page. *)
Definition visit (document : list Element) (i : nat) : Completion (list Element) :=
  match document !! i with
  | Some elemento =>
      elemento' ← formatearElemento elemento;
      mret (<[i := elemento']> document)
  | None => mret document
  end.

Fixpoint forEach (selected : list nat) (document : list Element)
  : Completion (list Element) :=
  match selected with
  | [] => mret document
  | i :: rest => document' ← visit document i; forEach rest document'
  end.

(** [function formatearElementos()] *)
Definition formatearElementos (document : list Element) : Completion (list Element) :=
  forEach (querySelectorAll_data_format document) document.

(** ** The declarative pass on a page whose elements nest *)

(** The page as a tree.  A node is a text node or an element; an element has
    an identity (the object that a NodeList holds), its attributes and its
    child nodes. *)
#[local] Set Warnings "-register-all".
Inductive Node : Type :=
  | TextNode (data : string)
  | ElementNode (id : nat) (attrs : gmap string string) (children : list Node).

(** [node.textContent] read: the text of the descendants, in tree order. *)
Fixpoint node_textContent (n : Node) : string :=
  match n with
  | TextNode data => data
  | ElementNode _ _ children =>
      foldr (fun c rest => node_textContent c +:+ rest) ""%string children
  end.

(** The children of an element after [elemento.textContent = s]: one text
    node, and none for the empty string. *)
Definition text_children (s : string) : list Node :=
  if (s =? "")%string then [] else [TextNode s].

(** The elements of a subtree, in tree order. *)
Fixpoint element_ids (n : Node) : list nat :=
  match n with
  | TextNode _ => []
  | ElementNode id _ children => id :: flat_map element_ids children
  end.

(** [document.querySelectorAll('[data-format]')]: the elements that carry
    the attribute, in tree order.  The NodeList is static: it holds the
    elements themselves, whatever becomes of the page afterwards. *)
Fixpoint querySelectorAll_tree (n : Node) : list nat :=
  match n with
  | TextNode _ => []
  | ElementNode id attrs children =>
      match attrs !! "data-format"%string with
      | Some _ => [id]
      | None => []
      end ++ flat_map querySelectorAll_tree children
  end.

Fixpoint first_some {A : Type} (l : list (option A)) : option A :=
  match l with
  | [] => None
  | Some a :: _ => Some a
  | None :: l' => first_some l'
  end.

(** The attributes and the text content of the element [i], when it is in
    the page. *)
Fixpoint find_element (i : nat) (n : Node) : option (gmap string string * string) :=
  match n with
  | TextNode _ => None
  | ElementNode id attrs children =>
      if (id =? i)%nat then Some (attrs, node_textContent n)
      else first_some (map (find_element i) children)
  end.

(** [elemento.textContent = s] on the element [i] of the page: its children
    are replaced by the text. *)
Fixpoint set_textContent_tree (i : nat) (s : string) (n : Node) : Node :=
  match n with
  | TextNode data => TextNode data
  | ElementNode id attrs children =>
      if (id =? i)%nat then ElementNode id attrs (text_children s)
      else ElementNode id attrs (map (set_textContent_tree i s) children)
  end.

(** The body of the arrow function passed to forEach, on an element with
    attributes [attrs] and text content [texto]: [Some s] when a case of the
    switch assigns [s] to textContent, [None] when no case matches. *)
Definition asignacion (attrs : gmap string string) (texto : string)
  : Completion (option string) :=
  let formato := default ""%string (attrs !! "data-format"%string) in
  let valor := or_zero (parseFloat (VString texto)) in
  let decimales := default 0 (parseInt (attrs !! "data-decimales"%string)) in
  if (formato =? "numero")%string then
    s ← formatoNumero (VNumber valor) (Some decimales);
    mret (Some s)
  else if (formato =? "moneda")%string then
    let simbolo := or_dollar (attrs !! "data-simbolo"%string) in
    s ← formatoMoneda (VNumber valor) (Some simbolo) (Some decimales);
    mret (Some s)
  else if (formato =? "porcentaje")%string then
    s ← formatoPorcentaje (VNumber valor) (Some decimales);
    mret (Some s)
  else if (formato =? "compacto")%string then
    s ← formatoCompacto (VNumber valor);
    mret (Some s)
  else mret None.

(** One step of forEach on the element [i] of the NodeList.  An element
    whose ancestor has been written to is no longer in the page: the
    callback still runs on it, and what it writes there the page does not
    show. *)
Definition visit_tree (page : Node) (i : nat) : Completion Node :=
  match find_element i page with
  | Some (attrs, texto) =>
      r ← asignacion attrs texto;
      match r with
      | Some s => mret (set_textContent_tree i s page)
      | None => mret page
      end
  | None => mret page
  end.

Fixpoint forEach_tree (selected : list nat) (page : Node) : Completion Node :=
  match selected with
  | [] => mret page
  | i :: rest => page' ← visit_tree page i; forEach_tree rest page'
  end.

(** [function formatearElementos()] on the tree under [page]. *)
Definition formatearElementos_tree (page : Node) : Completion Node :=
  forEach_tree (querySelectorAll_tree page) page.

(** ** Predicates of the specification *)

Definition is_NaN (x : float) : bool :=
  match Prim2SF x with
  | S754_nan => true
  | _ => false
  end.

(** A finite Number: neither NaN nor an infinity. *)
Definition finite (x : float) : bool :=
  match Prim2SF x with
  | S754_zero _ | S754_finite _ _ _ => true
  | _ => false
  end.

(** A non-numeric or missing input: one that parseFloat reads as NaN (the
    empty string, non-numeric text, null, an absent value). *)
Definition non_numeric (v : JsValue) : bool := is_NaN (parseFloat v).

(** The four modes the declarative pass recognizes. *)
Definition recognized (formato : string) : bool :=
  (formato =? "numero")%string || (formato =? "moneda")%string
  || (formato =? "porcentaje")%string || (formato =? "compacto")%string.

(** The shape of a grouped number with [d] decimals: an optional minus
    sign, a leading cluster of one to three digits, clusters of exactly
    three digits each preceded by ".", and, when [d] is not zero, a ","
    followed by exactly [d] digits. *)
Definition grouped_shape (d : nat) (s : string) : Prop :=
  exists (negative : bool) (lead : list ascii) (clusters : list (list ascii))
         (frac : list ascii),
    chars s = sign_chars negative ++ join_with "."%char (lead :: clusters)
                ++ match d with O => [] | S _ => ","%char :: frac end
    /\ (1 <= length lead <= 3)%nat
    /\ Forall (fun g => length g = 3%nat) clusters
    /\ Forall (fun c => is_digit c = true) (lead ++ concat clusters)
    /\ length frac = d
    /\ Forall (fun c => is_digit c = true) frac.

(** Executable check of the same shape, for concrete strings. *)
Fixpoint split_on (sep : ascii) (l : list ascii) : list (list ascii) :=
  match l with
  | [] => [[]]
  | c :: l' =>
      if (c =? sep)%char then [] :: split_on sep l'
      else match split_on sep l' with
           | g :: gs => (c :: g) :: gs
           | [] => [[c]]
           end
  end.

Definition all_digits (l : list ascii) : bool := forallb is_digit l.

Definition grouped_shape_b (d : nat) (s : string) : bool :=
  let l := match chars s with
           | c :: r => if (c =? "-")%char then r else c :: r
           | [] => []
           end in
  match split_on ","%char l with
  | [int] =>
      Nat.eqb d 0
      && match split_on "."%char int with
         | lead :: clusters =>
             (1 <=? length lead)%nat && (length lead <=? 3)%nat && all_digits lead
             && forallb (fun g => Nat.eqb (length g) 3 && all_digits g) clusters
         | [] => false
         end
  | [int; frac] =>
      negb (Nat.eqb d 0) && Nat.eqb (length frac) d && all_digits frac
      && match split_on "."%char int with
         | lead :: clusters =>
             (1 <=? length lead)%nat && (length lead <=? 3)%nat && all_digits lead
             && forallb (fun g => Nat.eqb (length g) 3 && all_digits g) clusters
         | [] => false
         end
  | _ => false
  end.

(** A numeric prefix, by its parts: leading white space, an optional sign,
    integer digits, an optional "." with fraction digits, and an optional
    exponent part (its letter, optional sign and digits). *)
Record NumericPrefix : Type := mkPrefix {
  pre_space : list ascii;
  pre_sign : option bool;
  pre_int : list ascii;
  pre_frac : option (list ascii);
  pre_exp : option (ascii * option bool * list ascii);
}.

Definition sign_opt_chars (s : option bool) : list ascii :=
  match s with
  | None => []
  | Some true => ["-"%char]
  | Some false => ["+"%char]
  end.

Definition frac_digits (p : NumericPrefix) : list ascii := default [] (pre_frac p).

(** The prefix is a StrDecimalLiteral after white space: digits everywhere
    digits are expected, at least one digit before the exponent, and a
    non-empty exponent when there is one. *)
Definition valid_prefix (p : NumericPrefix) : bool :=
  forallb is_ascii_space (pre_space p)
  && all_digits (pre_int p) && all_digits (frac_digits p)
  && negb (Nat.eqb (length (pre_int p ++ frac_digits p)) 0)
  && match pre_exp p with
     | Some (c, _, ds) =>
         ((c =? "e")%char || (c =? "E")%char) && all_digits ds
         && negb (Nat.eqb (length ds) 0)
     | None => true
     end.

Definition fraction_chars (p : NumericPrefix) : list ascii :=
  match pre_frac p with
  | Some f => "."%char :: f
  | None => []
  end.

Definition exponent_chars (p : NumericPrefix) : list ascii :=
  match pre_exp p with
  | Some (c, s, ds) => c :: sign_opt_chars s ++ ds
  | None => []
  end.

Definition exponent_value (p : NumericPrefix) : Z :=
  match pre_exp p with
  | Some (_, Some true, ds) => - digits_value ds
  | Some (_, _, ds) => digits_value ds
  | None => 0
  end.

Definition prefix_chars (p : NumericPrefix) : list ascii :=
  pre_space p ++ sign_opt_chars (pre_sign p) ++ pre_int p
    ++ fraction_chars p ++ exponent_chars p.

(** The Number the prefix denotes. *)
Definition prefix_value (p : NumericPrefix) : float :=
  float_of_decimal (default false (pre_sign p))
                   (digits_value (pre_int p ++ frac_digits p))
                   (exponent_value p - Z.of_nat (length (frac_digits p))).

(** The Number of an integer [0 <= n < 2^53], which binary64 holds
    exactly: the hardware's conversion. *)
Definition integer_Number (n : Z) : float := of_uint63 (Uint63.of_Z n).

(** The decimal [m / 10^k] with its sign, as the hardware divides: both
    integers are held exactly, and IEEE 754 division returns the Number
    nearest to the exact quotient.  This is the value that the digits [m]
    with [k] of them after the point denote, obtained without
    [float_of_decimal]. *)
Definition decimal_quotient (negative : bool) (m : Z) (k : nat) : float :=
  let q := (integer_Number m / integer_Number (10 ^ Z.of_nat k))%float in
  if negative then (- q)%float else q.

(** The number of binary digits of a positive integer. *)
Definition binary_digits (p : positive) : Z := Zpos (digits2_pos p).

(** The 53-bit mantissa of a positive integer below 2^53. *)
Definition normal_mantissa (p : positive) : positive :=
  Z.to_pos (Zpos p * 2 ^ (53 - binary_digits p)).

(** The exponent of ten of the prefix: the exponent part less the number of
    digits after the point. *)
Definition prefix_exponent (p : NumericPrefix) : Z :=
  exponent_value p - Z.of_nat (length (frac_digits p)).

(** Whether the text starts an exponent part: "e" or "E", an optional sign,
    a digit. *)
Definition starts_exponent (l : list ascii) : bool :=
  match l with
  | c :: r =>
      ((c =? "e")%char || (c =? "E")%char)
      && match snd (scan_sign r) with
         | d :: _ => is_digit d
         | [] => false
         end
  | [] => false
  end.

(** Trailing text that cannot continue a numeric literal: it does not start
    with a digit, a "." or an exponent part. *)
Definition non_numeric_trailing (t : string) : bool :=
  match chars t with
  | [] => true
  | c :: r => negb (is_digit c) && negb (c =? ".")%char && negb (starts_exponent (c :: r))
  end.

(** The element as the pass leaves it. *)
Definition formateado (elemento : Element) : Element :=
  match formatearElemento elemento with
  | Normal elemento' => elemento'
  | Throw _ => elemento
  end.

(** The sign and the magnitude [p/q] of a finite Number (toFixed prints -0
    as 0). *)
Definition magnitude (y : float) : option (bool * Z * Z) :=
  match Prim2SF y with
  | S754_zero _ => Some (false, 0, 1)
  | S754_finite negative m e => Some (negative, exact_num m e, exact_den e)
  | _ => None
  end.

(** A finite Number of magnitude below 10^21, where toFixed prints plain
    decimals. *)
Definition below_1e21 (y : float) : bool :=
  match magnitude y with
  | Some (_, p, q) => p <? 10 ^ 21 * q
  | None => false
  end.

(** [s] is [y] rounded to [f] decimals and written with a "." as decimal
    point: a minus sign for a negative [y], integer digits, ".", and [f]
    digits; the digits denote the integer nearest to [|y| * 10^f]. *)
Definition rounded_to (f : nat) (y : float) (s : string) : Prop :=
  exists (negative : bool) (p q : Z) (a b : list ascii),
    magnitude y = Some (negative, p, q)
    /\ chars s = sign_chars negative ++ a ++ "."%char :: b
    /\ (1 <= length a)%nat /\ length b = f
    /\ Forall (fun c => is_digit c = true) (a ++ b)
    /\ 2 * Z.abs (p * 10 ^ Z.of_nat f - digits_value (a ++ b) * q) <= q.

(** [result] is [x / unit] printed by toFixed(1) and followed by [suffix]. *)
Definition compact_as (x unit : float) (suffix : string)
    (result : Completion string) : Prop :=
  exists s, toFixed (x / unit)%float 1 = Normal s
            /\ result = Normal (s +:+ suffix)
            /\ (below_1e21 (x / unit)%float = true -> rounded_to 1 (x / unit)%float s).

(** One step of forEach when the callback returns [formatted elemento]. *)
Definition visited (formatted : Element -> Element) (document : list Element)
    (i : nat) : list Element :=
  match document !! i with
  | Some elemento => <[i := formatted elemento]> document
  | None => document
  end.

(** A Number below zero: a negative finite Number or -Infinity. *)
Definition below_zero (x : float) : bool :=
  match Prim2SF x with
  | S754_finite true _ _ | S754_infinity true => true
  | _ => false
  end.

(** What the callback assigns to the text content of an element. *)
Definition asignado (attrs : gmap string string) (texto : string) : option string :=
  match asignacion attrs texto with
  | Normal r => r
  | Throw _ => None
  end.

(** One step of forEach as a function of the page. *)
Fixpoint visited_tree (i : nat) (n : Node) : Node :=
  match n with
  | TextNode data => TextNode data
  | ElementNode id attrs children =>
      if (id =? i)%nat then
        match asignado attrs (node_textContent n) with
        | Some s => ElementNode id attrs (text_children s)
        | None => n
        end
      else ElementNode id attrs (map (visited_tree i) children)
  end.

(** The page as the pass leaves it: an element with a recognized mode holds
    its formatted text, and the pass goes on below every other element. *)
Fixpoint formateado_tree (n : Node) : Node :=
  match n with
  | TextNode data => TextNode data
  | ElementNode id attrs children =>
      match asignado attrs (node_textContent n) with
      | Some s => ElementNode id attrs (text_children s)
      | None => ElementNode id attrs (map formateado_tree children)
      end
  end.

(** [u] is a node of the page that lies inside no element with a recognized
    mode. *)
Inductive outside_recognized (u : Node) : Node -> Prop :=
  | outside_here : outside_recognized u u
  | outside_child (id : nat) (attrs : gmap string string) (children : list Node)
      (c : Node) :
      recognized (default ""%string (attrs !! "data-format"%string)) = false ->
      c ∈ children ->
      outside_recognized u c ->
      outside_recognized u (ElementNode id attrs children).

(** Some element of the subtree has a recognized mode. *)
Fixpoint has_recognized (n : Node) : bool :=
  match n with
  | TextNode _ => false
  | ElementNode _ attrs children =>
      recognized (default ""%string (attrs !! "data-format"%string))
      || existsb has_recognized children
  end.

(** [<div data-format="tabla"><span data-format="numero">1234</span></div>] *)
Definition tabla_con_total : Node :=
  ElementNode 0 {[ "data-format"%string := "tabla"%string ]}
    [ ElementNode 1 {[ "data-format"%string := "numero"%string ]} [TextNode "1234"] ].

(** [<td data-format="moneda"><strong>1500000</strong></td>] *)
Definition celda_con_negrita : Node :=
  ElementNode 0 {[ "data-format"%string := "moneda"%string ]}
    [ ElementNode 1 ∅ [TextNode "1500000"] ].

(** An element that owns its text, as a node of the tree, and a page whose
    body holds such elements one after the other. *)
Definition leaf_node (i : nat) (elemento : Element) : Node :=
  ElementNode i (attributes elemento) (text_children (textContent elemento)).

Definition page_of_leaves (document : list Element) : Node :=
  ElementNode 0 ∅ (imap (fun i elemento => leaf_node (S i) elemento) document).

(** ** The template checker: verificar_dia7.ps1 *)

(** The script reads the template files and counts, per file, the matches of
    a pattern.  The files are a finite map from paths to their lines; the
    regular-expression engine is the host's, and enters as the number of
    matches of a pattern in a line. *)
Section VerificarDia7.

Variable match_count : string -> string -> nat.

(** [Test-Path $file] *)
Definition Test_Path (files : gmap string (list string)) (file : string) : bool :=
  bool_decide (is_Some (files !! file)).

(** [Select-String -Path $file -Pattern $pattern -Quiet]: some line of the
    file has a match. *)
Definition Select_String_Quiet (files : gmap string (list string))
    (file pattern : string) : bool :=
  existsb (fun line => (0 <? match_count pattern line)%nat) (default [] (files !! file)).

(** [(Select-String -Path $file -Pattern $pattern -AllMatches).Matches.Count] *)
Definition Select_String_Count (files : gmap string (list string))
    (file pattern : string) : nat :=
  foldr (fun line n => (match_count pattern line + n)%nat) 0%nat
        (default [] (files !! file)).

(** [function Check-File]: the file exists and holds the pattern. *)
Definition Check_File (files : gmap string (list string)) (file pattern : string) : bool :=
  if Test_Path files file
  then (if Select_String_Quiet files file pattern then true else false)
  else false.

(** Tests 4 and 5: the file exists and has at least [minimum] matches. *)
Definition Check_Count (files : gmap string (list string)) (file pattern : string)
    (minimum : nat) : bool :=
  if Test_Path files file
  then (minimum <=? Select_String_Count files file pattern)%nat
  else false.

(** The counters [$tests_passed] and [$tests_failed] after one test. *)
Definition tally (ok : bool) (counters : Z * Z) : Z * Z :=
  if ok then (fst counters + 1, snd counters) else (fst counters, snd counters + 1).

Definition comillas : string := String "034"%char EmptyString.

Definition autocomplete_off : string := "autocomplete=" +:+ comillas +:+ "off" +:+ comillas.

Definition noopener_noreferrer : string :=
  "rel=" +:+ comillas +:+ "noopener noreferrer" +:+ comillas.

(** [[math]::Round(x)] on [x = num / den]: the nearest integer, the even
    one at a tie.  The quotient [$tests_passed / $total_tests] is a multiple
    of 1/8 and its product with 100 a multiple of 1/2, both exact in
    binary64. *)
Definition Round (num den : Z) : Z :=
  let q := num / den in
  let r := num mod den in
  if 2 * r <? den then q
  else if den <? 2 * r then q + 1
  else if Z.even q then q else q + 1.

Record Resumen : Type := mkResumen {
  tests_passed : Z;
  tests_failed : Z;
  percentage : Z;
  exit_code : Z;
}.

Definition total_tests : Z := 8.

(** The eight tests in order, the summary and the exit code. *)
Definition verificar_dia7 (files : gmap string (list string)) : Resumen :=
  let c := (0, 0) in
  let c := tally (Check_File files "templates\auth\login.html" autocomplete_off) c in
  let c := tally (Check_File files "templates\auth\test_ldap.html" autocomplete_off) c in
  let c := tally (Check_File files "templates\usuarios\crear.html" autocomplete_off) c in
  let c := tally (Check_Count files "templates\usuarios\editar.html" autocomplete_off 2) c in
  let c := tally (Check_Count files "templates\usuarios\gestionar.html" autocomplete_off 3) c in
  let c := tally (Check_File files "templates\confirmacion\confirmar.html"
                             noopener_noreferrer) c in
  let c := tally (Check_File files "templates\reportes\inventario_corporativo.html"
                             noopener_noreferrer) c in
  let c := tally (Check_File files "templates\reportes\oficinas.html"
                             noopener_noreferrer) c in
  {| tests_passed := fst c;
     tests_failed := snd c;
     percentage := Round (fst c * 100) total_tests;
     exit_code := if 0 <? snd c then 1 else 0 |}.

End VerificarDia7.

(** The files the script inspects. *)
Definition archivos : list string :=
  [ "templates\auth\login.html"; "templates\auth\test_ldap.html";
    "templates\usuarios\crear.html"; "templates\usuarios\editar.html";
    "templates\usuarios\gestionar.html"; "templates\confirmacion\confirmar.html";
    "templates\reportes\inventario_corporativo.html";
    "templates\reportes\oficinas.html" ]%string.

(** The summary that eight test results give. *)
Definition resumen_de (results : list bool) : Resumen :=
  let c := fold_left (fun c ok => tally ok c) results (0, 0) in
  {| tests_passed := fst c;
     tests_failed := snd c;
     percentage := Round (fst c * 100) total_tests;
     exit_code := if 0 <? snd c then 1 else 0 |}.

(** * Verification *)

(** Boolean comparisons on integers that linear arithmetic decides. *)
Ltac decide_comparisons :=
  repeat match goal with
    | |- context [?a <? ?b] =>
        first [ replace (a <? b) with true by lia
              | replace (a <? b) with false by lia ]
    | |- context [?a <=? ?b] =>
        first [ replace (a <=? b) with true by lia
              | replace (a <=? b) with false by lia ]
    | |- context [?a =? ?b] =>
        first [ replace (a =? b) with true by lia
              | replace (a =? b) with false by lia ]
    end.

(** ** Completions *)

Lemma try_catch_total {A : Type} (body : Completion A) (a : A) :
  exists r, try_catch body (fun _ => Normal a) = Normal r.
Proof. destruct body as [r|e]; simpl; eauto. Qed.

(** ** Coercion of the input *)

Lemma or_zero_NaN (x : float) : is_NaN x = true -> or_zero x = zero.
Proof.
  unfold is_NaN, or_zero. destruct (Prim2SF x); congruence.
Qed.

Lemma or_zero_non_numeric (v : JsValue) :
  non_numeric v = true -> or_zero (parseFloat v) = zero.
Proof. apply or_zero_NaN. Qed.

Lemma or_zero_number (x : float) :
  or_zero (parseFloat (VNumber x)) = or_zero x.
Proof.
  unfold parseFloat, or_zero.
  destruct (Prim2SF x) eqn:E; rewrite ?E; reflexivity.
Qed.

Lemma coerce_zero : or_zero (parseFloat (VNumber 0)) = zero.
Proof. reflexivity. Qed.

(** The inputs the specification calls non-numeric are read as NaN. *)
Example non_numeric_inputs :
  forallb non_numeric
          [VString ""; VString "abc"; VString "sin dato"; VNull; VUndefined;
           VBool true; VNumber nan]
  = true.
Proof. vm_compute. reflexivity. Qed.

(** Number::toString followed by parseFloat gives the Number back, as
    [parseFloat] on a Number assumes; checked on sample values, among them
    the largest and the smallest positive Numbers. *)
Example parseFloat_NumberToString_samples :
  forallb (fun x => (parseFloat_string (NumberToString x) =? x)%float)
          [1500; 0.1; 0.855; 1234.56; 1e21; 1e-7; 5e-324; 1.7976931348623157e308;
           -12.75; 123456789012345680000; 0.30000000000000004; 85.5]%float
  = true.
Proof. vm_compute. reflexivity. Qed.

Example NumberToString_samples :
  map NumberToString [999; 0.1; 1e21; 1e-7; 0.000001; -12.75; 0.30000000000000004]%float
  = ["999"; "0.1"; "1e+21"; "1e-7"; "0.000001"; "-12.75"; "0.30000000000000004"]%string.
Proof. vm_compute. reflexivity. Qed.

(** The examples of the module's usage notes. *)
Example usage_notes :
  formatoNumero (VNumber 100000) None = Normal "100.000"%string
  /\ formatoNumero (VNumber 1234.56) (Some 2) = Normal "1.234,56"%string
  /\ formatoMoneda (VNumber 100000) None None = Normal "$100.000"%string
  /\ formatoPorcentaje (VNumber 0.855) None = Normal "85,5%"%string
  /\ formatoPorcentaje (VNumber 75) (Some 0) = Normal "75%"%string
  /\ formatoCompacto (VNumber 1500) = Normal "1.5K"%string
  /\ formatoCompacto (VNumber 2500000) = Normal "2.5M"%string.
Proof. repeat split; vm_compute; reflexivity. Qed.

Example usage_notes_pass :
  let span (formato texto : string) :=
    mkElement {[ "data-format"%string := formato ]} texto in
  map (fun e => textContent (formateado e))
      [span "numero" "100000"; span "moneda" "1500000"; span "porcentaje" "0.85"]
  = ["100.000"; "$1.500.000"; "85%"]%string.
Proof. vm_compute. reflexivity. Qed.

(** ** Totality of the four operations *)

Lemma formatoNumero_total (numero : JsValue) (decimales : option Z) :
  exists s, formatoNumero numero decimales = Normal s.
Proof. apply try_catch_total. Qed.

Lemma formatoPorcentaje_total (numero : JsValue) (decimales : option Z) :
  exists s, formatoPorcentaje numero decimales = Normal s.
Proof. apply try_catch_total. Qed.

Lemma formatoCompacto_total (numero : JsValue) :
  exists s, formatoCompacto numero = Normal s.
Proof. apply try_catch_total. Qed.

Lemma formatoMoneda_total (numero : JsValue) (simbolo : option string)
    (decimales : option Z) :
  exists s, formatoMoneda numero simbolo decimales = Normal s.
Proof.
  unfold formatoMoneda.
  destruct (formatoNumero_total numero (Some (default 0 decimales))) as [r ->].
  simpl. eauto.
Qed.

Create HintDb total discriminated.
#[local] Hint Resolve formatoNumero_total formatoPorcentaje_total
  formatoCompacto_total formatoMoneda_total : total.

(** ** Decimal digits *)

Lemma digit_char_is_digit (n : Z) : is_digit (digit_char (n mod 10)) = true.
Proof.
  pose proof (Z.mod_pos_bound n 10 ltac:(lia)) as H.
  assert (n mod 10 = 0 \/ n mod 10 = 1 \/ n mod 10 = 2 \/ n mod 10 = 3
          \/ n mod 10 = 4 \/ n mod 10 = 5 \/ n mod 10 = 6 \/ n mod 10 = 7
          \/ n mod 10 = 8 \/ n mod 10 = 9) as D by lia.
  repeat (destruct D as [-> | D]; [reflexivity |]). rewrite D. reflexivity.
Qed.

Lemma digits_fuel_digits (fuel : nat) : forall (n : Z) (acc : list ascii),
  Forall (fun c => is_digit c = true) acc ->
  Forall (fun c => is_digit c = true) (digits_fuel fuel n acc).
Proof.
  induction fuel as [|fuel IH]; intros n acc Hacc; simpl; [assumption|].
  assert (Forall (fun c => is_digit c = true) (digit_char (n mod 10) :: acc))
    by (constructor; [apply digit_char_is_digit | assumption]).
  destruct (n <? 10); auto.
Qed.

Lemma digits_fuel_length (fuel : nat) : forall (n : Z) (acc : list ascii),
  (length acc <= length (digits_fuel fuel n acc))%nat.
Proof.
  induction fuel as [|fuel IH]; intros n acc; simpl; [lia|].
  destruct (n <? 10); simpl; [lia|].
  etransitivity; [| apply IH]. simpl. lia.
Qed.

Lemma decimal_digits_digits (n : Z) :
  Forall (fun c => is_digit c = true) (decimal_digits n).
Proof. apply digits_fuel_digits. constructor. Qed.

Lemma decimal_digits_length (n : Z) : (1 <= length (decimal_digits n))%nat.
Proof.
  unfold decimal_digits. simpl.
  destruct (n <? 10); simpl; [lia|].
  etransitivity; [| apply digits_fuel_length]. simpl. lia.
Qed.

Lemma zeros_digits (k : nat) : Forall (fun c => is_digit c = true) (zeros k).
Proof. apply Forall_replicate. reflexivity. Qed.

Lemma fixed_digits_spec (n : Z) (f : nat) (a b : list ascii) :
  fixed_digits n f = (a, b) ->
  (1 <= length a)%nat /\ length b = f
  /\ Forall (fun c => is_digit c = true) a
  /\ Forall (fun c => is_digit c = true) b.
Proof.
  unfold fixed_digits. intros E. inversion E as [[Ha Hb]]; clear E.
  set (m := zeros (S f - length (decimal_digits n)) ++ decimal_digits n).
  assert (S f <= length m)%nat as Hlen.
  { unfold m, zeros. rewrite length_app, length_replicate. lia. }
  assert (Forall (fun c => is_digit c = true) m) as Hm.
  { unfold m. apply Forall_app. split; [apply zeros_digits | apply decimal_digits_digits]. }
  repeat split.
  - rewrite length_take. lia.
  - rewrite length_drop. lia.
  - apply Forall_take, Hm.
  - apply Forall_drop, Hm.
Qed.

(** ** Grouping by three *)

Lemma groups_of_three_spec (fuel : nat) : forall ds : list ascii,
  (length ds <= fuel + 3)%nat -> (1 <= length ds)%nat ->
  exists lead clusters,
    groups_of_three fuel ds = lead :: clusters
    /\ (1 <= length lead <= 3)%nat
    /\ Forall (fun g => length g = 3%nat) clusters
    /\ lead ++ concat clusters = ds.
Proof.
  induction fuel as [|fuel IH]; intros ds Hfuel Hne.
  - exists ds, []. simpl. rewrite app_nil_r. repeat split; try lia. constructor.
  - simpl. destruct (length ds <=? 3)%nat eqn:E.
    + apply Nat.leb_le in E. exists ds, []. rewrite app_nil_r.
      repeat split; try lia. constructor.
    + apply Nat.leb_gt in E.
      destruct (IH (take (length ds - 3) ds)) as (lead & clusters & -> & Hl & Hc & Hcat).
      { rewrite length_take. lia. }
      { rewrite length_take. lia. }
      exists lead, (clusters ++ [drop (length ds - 3) ds]).
      repeat split; try lia.
      * apply Forall_app. split; [assumption|].
        constructor; [|constructor]. rewrite length_drop. lia.
      * rewrite concat_app. simpl. rewrite app_nil_r, app_assoc, Hcat.
        apply take_drop.
Qed.

Lemma strip_zeros_none (l : list ascii) : strip_zeros 0 l = l.
Proof. destruct l; reflexivity. Qed.

Lemma chars_text (l : list ascii) : chars (text l) = l.
Proof. apply list_ascii_of_string_of_list_ascii. Qed.

Lemma format_es_CO_shape (negative : bool) (p q : Z) (d : nat) :
  grouped_shape d (text (format_es_CO negative p q d d)).
Proof.
  unfold format_es_CO.
  destruct (fixed_digits (round_scaled p q (Z.of_nat d)) d) as [a b] eqn:E.
  apply fixed_digits_spec in E as (Ha & Hb & Hda & Hdb).
  rewrite Nat.sub_diag, strip_zeros_none, rev_involutive.
  destruct (groups_of_three_spec (length a) a) as (lead & clusters & Hg & Hl & Hc & Hcat);
    [lia | lia |].
  exists negative, lead, clusters, b.
  rewrite chars_text. unfold group_integer. rewrite Hg.
  repeat split; try assumption; try lia.
  - do 2 f_equal. destruct b, d; simpl in *; try reflexivity; discriminate.
  - rewrite Hcat. assumption.
Qed.

Lemma toLocaleString_es_CO_shape (x : float) (d : Z) :
  finite x = true -> 0 <= d <= 100 ->
  exists s, toLocaleString_es_CO x d d = Normal s /\ grouped_shape (Z.to_nat d) s.
Proof.
  intros Hfin Hd. unfold toLocaleString_es_CO, finite in *.
  decide_comparisons. simpl.
  destruct (Prim2SF x); try discriminate;
    eexists; (split; [reflexivity | apply format_es_CO_shape]).
Qed.

Lemma finite_or_zero (x : float) : finite x = true -> finite (or_zero x) = true.
Proof.
  unfold or_zero, finite. destruct (Prim2SF x) eqn:E; rewrite ?E; try discriminate; reflexivity.
Qed.

(** With a digit count in 0..100, formatoNumero is the locale primitive
    applied to the coerced value. *)
Lemma formatoNumero_in_range (numero : JsValue) (d : Z) :
  0 <= d <= 100 ->
  formatoNumero numero (Some d)
  = try_catch (toLocaleString_es_CO (or_zero (parseFloat numero)) d d)
              (fun _ => Normal "0"%string).
Proof.
  intros Hd. unfold formatoNumero. simpl.
  destruct (0 <? d) eqn:E; [reflexivity|].
  assert (d = 0) as -> by lia. reflexivity.
Qed.

(** ** The executable shape check is sound *)

Lemma split_on_cons (sep : ascii) (l : list ascii) :
  exists g gs, split_on sep l = g :: gs.
Proof.
  induction l as [|c l (g & gs & IH)]; simpl; [eauto|].
  destruct (c =? sep)%char; [eauto|]. rewrite IH. eauto.
Qed.

Lemma join_with_cons (sep : ascii) (g g' : list ascii) (gs : list (list ascii)) :
  join_with sep (g :: g' :: gs) = g ++ sep :: join_with sep (g' :: gs).
Proof. reflexivity. Qed.

Lemma join_with_split_on (sep : ascii) (l : list ascii) :
  join_with sep (split_on sep l) = l.
Proof.
  induction l as [|c l IH]; [reflexivity|]. simpl.
  destruct (split_on_cons sep l) as (g & gs & E). rewrite E in *.
  destruct (c =? sep)%char eqn:Hc.
  - apply Ascii.eqb_eq in Hc as ->. rewrite join_with_cons, IH. reflexivity.
  - destruct gs as [|g' gs]; simpl in *; rewrite <- IH; reflexivity.
Qed.

Lemma all_digits_Forall (l : list ascii) :
  all_digits l = true -> Forall (fun c => is_digit c = true) l.
Proof.
  induction l as [|c l IH]; simpl; [constructor|].
  intros [Hc Hl]%andb_true_iff. constructor; [exact Hc | apply IH, Hl].
Qed.

Lemma integer_part_sound (int : list ascii) :
  match split_on "."%char int with
  | lead :: clusters =>
      (1 <=? length lead)%nat && (length lead <=? 3)%nat && all_digits lead
      && forallb (fun g => Nat.eqb (length g) 3 && all_digits g) clusters
  | [] => false
  end = true ->
  exists lead clusters,
    int = join_with "."%char (lead :: clusters)
    /\ (1 <= length lead <= 3)%nat
    /\ Forall (fun g => length g = 3%nat) clusters
    /\ Forall (fun c => is_digit c = true) (lead ++ concat clusters).
Proof.
  pose proof (join_with_split_on "."%char int) as Hjoin.
  destruct (split_on "."%char int) as [|lead clusters]; [discriminate|].
  intros H.
  apply andb_true_iff in H as [H Hcl]. apply andb_true_iff in H as [H Hd].
  apply andb_true_iff in H as [H1 H3].
  apply Nat.leb_le in H1, H3.
  exists lead, clusters. split; [symmetry; exact Hjoin|]. split; [lia|].
  assert (Forall (fun g => length g = 3%nat /\ Forall (fun c => is_digit c = true) g)
                 clusters) as Hall.
  { clear Hjoin. induction clusters as [|g clusters IH]; [constructor|].
    simpl in Hcl. apply andb_true_iff in Hcl as [Hg Hcl].
    apply andb_true_iff in Hg as [Hlen Hdg].
    constructor; [| apply IH, Hcl].
    split; [apply Nat.eqb_eq, Hlen | apply all_digits_Forall, Hdg]. }
  split.
  - eapply Forall_impl; [exact Hall|]. intros g [Hg _]. exact Hg.
  - apply Forall_app. split; [apply all_digits_Forall, Hd|].
    apply Forall_concat. eapply Forall_impl; [exact Hall|]. intros g [_ Hg]. exact Hg.
Qed.

Lemma grouped_shape_b_sound (d : nat) (s : string) :
  grouped_shape_b d s = true -> grouped_shape d s.
Proof.
  unfold grouped_shape_b, grouped_shape.
  set (l := match chars s with
            | c :: r => if (c =? "-")%char then r else c :: r
            | [] => []
            end).
  assert (exists negative, chars s = sign_chars negative ++ l) as [negative Hs].
  { unfold l. destruct (chars s) as [|c r]; [exists false; reflexivity|].
    destruct (c =? "-")%char eqn:Hc.
    - apply Ascii.eqb_eq in Hc as ->. exists true. reflexivity.
    - exists false. reflexivity. }
  pose proof (join_with_split_on ","%char l) as Hl.
  destruct (split_on ","%char l) as [|int [|frac [|? ?]]]; try discriminate.
  - intros [Hd Hint]%andb_true_iff. apply Nat.eqb_eq in Hd as ->.
    apply integer_part_sound in Hint as (lead & clusters & Hint & H13 & Hcl & Hdg).
    exists negative, lead, clusters, []. simpl in Hl.
    rewrite Hs, <- Hl, Hint, app_nil_r. repeat split; try assumption; try lia.
    constructor.
  - intros H. apply andb_true_iff in H as [H Hint].
    apply andb_true_iff in H as [H Hfd]. apply andb_true_iff in H as [Hd Hlen].
    apply Nat.eqb_eq in Hlen.
    apply integer_part_sound in Hint as (lead & clusters & Hint & H13 & Hcl & Hdg).
    exists negative, lead, clusters, frac. rewrite join_with_cons in Hl. simpl in Hl.
    rewrite Hs, <- Hl, Hint.
    repeat split; try assumption; try lia; [|apply all_digits_Forall, Hfd].
    destruct d; [discriminate Hd | reflexivity].
Qed.

Lemma split_on_no_sep (sep : ascii) (l : list ascii) :
  Forall (fun c => (c =? sep)%char = false) l -> split_on sep l = [l].
Proof.
  induction 1 as [|c l Hc _ IH]; simpl; [reflexivity|]. rewrite Hc, IH. reflexivity.
Qed.

Lemma split_on_app (sep : ascii) (g rest : list ascii) :
  Forall (fun c => (c =? sep)%char = false) g ->
  split_on sep (g ++ sep :: rest) = g :: split_on sep rest.
Proof.
  induction 1 as [|c g Hc _ IH]; simpl.
  - rewrite Ascii.eqb_refl. reflexivity.
  - rewrite Hc, IH. reflexivity.
Qed.

Lemma split_on_join_with (sep : ascii) (g : list ascii) (gs : list (list ascii)) :
  Forall (Forall (fun c => (c =? sep)%char = false)) (g :: gs) ->
  split_on sep (join_with sep (g :: gs)) = g :: gs.
Proof.
  revert g. induction gs as [|g' gs IH]; intros g Hall.
  - apply split_on_no_sep. inversion Hall; assumption.
  - rewrite join_with_cons. inversion Hall as [|? ? Hg Hrest]; subst.
    rewrite split_on_app, IH by assumption. reflexivity.
Qed.

Lemma digit_is_no_separator (c : ascii) :
  is_digit c = true ->
  (c =? ".")%char = false /\ (c =? ",")%char = false /\ (c =? "-")%char = false.
Proof.
  destruct c as [[] [] [] [] [] [] [] []]; vm_compute; intros H;
    try discriminate H; repeat split.
Qed.

Lemma Forall_all_digits (l : list ascii) :
  Forall (fun c => is_digit c = true) l -> all_digits l = true.
Proof.
  induction 1 as [|c l Hc _ IH]; simpl; [reflexivity|]. rewrite Hc, IH. reflexivity.
Qed.

Lemma integer_part_complete (lead : list ascii) (clusters : list (list ascii)) :
  (1 <= length lead <= 3)%nat ->
  Forall (fun g => length g = 3%nat) clusters ->
  Forall (fun c => is_digit c = true) (lead ++ concat clusters) ->
  match split_on "."%char (join_with "."%char (lead :: clusters)) with
  | lead :: clusters =>
      (1 <=? length lead)%nat && (length lead <=? 3)%nat && all_digits lead
      && forallb (fun g => Nat.eqb (length g) 3 && all_digits g) clusters
  | [] => false
  end = true.
Proof.
  intros Hl Hcl [Hdl Hdc]%Forall_app.
  assert (Forall (Forall (fun c => is_digit c = true)) clusters) as Hdc'.
  { clear Hcl. induction clusters as [|g gs IH]; [constructor|].
    simpl in Hdc. apply Forall_app in Hdc as [Hg Hgs]. constructor; auto. }
  rewrite split_on_join_with.
  - rewrite (Forall_all_digits _ Hdl).
    replace (1 <=? length lead)%nat with true by (symmetry; apply Nat.leb_le; lia).
    replace (length lead <=? 3)%nat with true by (symmetry; apply Nat.leb_le; lia).
    simpl. clear Hdc. induction clusters as [|g gs IH]; [reflexivity|].
    inversion Hcl as [|? ? Hg Hgs]; inversion Hdc' as [|? ? Hdg Hdgs]; subst.
    simpl. rewrite Hg, (Forall_all_digits _ Hdg), IH by assumption. reflexivity.
  - constructor.
    + eapply Forall_impl; [exact Hdl|]. intros c Hc. apply digit_is_no_separator, Hc.
    + eapply Forall_impl; [exact Hdc'|]. intros g Hg.
      eapply Forall_impl; [exact Hg|]. intros c Hc. apply digit_is_no_separator, Hc.
Qed.

Lemma join_with_no_comma (lead : list ascii) (clusters : list (list ascii)) :
  Forall (fun c => is_digit c = true) (lead ++ concat clusters) ->
  Forall (fun c => (c =? ",")%char = false) (join_with "."%char (lead :: clusters)).
Proof.
  revert lead. induction clusters as [|g gs IH]; intros lead Hd.
  - simpl in *. rewrite app_nil_r in Hd.
    eapply Forall_impl; [exact Hd|]. intros c Hc. apply digit_is_no_separator, Hc.
  - rewrite join_with_cons. simpl in Hd. apply Forall_app in Hd as [Hl Hrest].
    apply Forall_app. split.
    + eapply Forall_impl; [exact Hl|]. intros c Hc. apply digit_is_no_separator, Hc.
    + constructor; [reflexivity | apply IH, Hrest].
Qed.

Lemma grouped_shape_b_complete (d : nat) (s : string) :
  grouped_shape d s -> grouped_shape_b d s = true.
Proof.
  intros (negative & lead & clusters & frac & Hs & Hl & Hcl & Hdg & Hlen & Hfd).
  unfold grouped_shape_b. rewrite Hs.
  set (int := join_with "."%char (lead :: clusters)).
  set (tail := match d with O => [] | S _ => ","%char :: frac end).
  assert (match sign_chars negative ++ int ++ tail with
          | c :: r => if (c =? "-")%char then r else c :: r
          | [] => []
          end = int ++ tail) as ->.
  { destruct negative; [reflexivity|]. simpl.
    destruct lead as [|c lead]; [simpl in Hl; lia|].
    inversion Hdg as [|? ? Hc _]; subst.
    apply digit_is_no_separator in Hc as (_ & _ & Hc).
    unfold int. destruct clusters; simpl; rewrite Hc; reflexivity. }
  pose proof (integer_part_complete lead clusters Hl Hcl Hdg) as Hint. fold int in Hint.
  pose proof (join_with_no_comma lead clusters Hdg) as Hnc. fold int in Hnc.
  unfold tail. destruct d as [|d].
  - rewrite app_nil_r, (split_on_no_sep _ _ Hnc). exact Hint.
  - rewrite (split_on_app _ _ _ Hnc), split_on_no_sep.
    + rewrite Hlen, Nat.eqb_refl, (Forall_all_digits _ Hfd). exact Hint.
    + eapply Forall_impl; [exact Hfd|]. intros c Hc. apply digit_is_no_separator, Hc.
Qed.

(** The shape is decidable: [grouped_shape_b] computes it. *)
Lemma grouped_shape_b_spec (d : nat) (s : string) :
  grouped_shape_b d s = true <-> grouped_shape d s.
Proof. split; [apply grouped_shape_b_sound | apply grouped_shape_b_complete]. Qed.

#[global] Instance grouped_shape_dec (d : nat) (s : string) : Decision (grouped_shape d s).
Proof.
  destruct (grouped_shape_b d s) eqn:E.
  - left. apply grouped_shape_b_spec, E.
  - right. intros H. apply grouped_shape_b_spec in H. congruence.
Defined.

Example grouped_shape_examples :
  grouped_shape_b 2 "1.234,56" = true
  /\ grouped_shape_b 0 "-1.234.567" = true
  /\ grouped_shape_b 2 "1234,56" = false
  /\ grouped_shape_b 2 "1.234,5" = false
  /\ grouped_shape_b 0 "1.23" = false.
Proof. repeat split; reflexivity. Qed.

(** ** C3: the shape of formatoNumero's result *)

(** C3, as amended: for every finite Number [v] and every digit count [d]
    from 0 to 100, formatoNumero(v, d) is a grouped number with exactly [d]
    digits after the "," (no "," when [d] is 0): an optional minus sign, a
    leading cluster of one to three digits and clusters of exactly three
    digits separated by ".". *)
Theorem formatoNumero_grouped (v : float) (d : Z) :
  finite v = true -> 0 <= d <= 100 ->
  exists s, formatoNumero (VNumber v) (Some d) = Normal s
            /\ grouped_shape (Z.to_nat d) s.
Proof.
  intros Hv Hd. rewrite formatoNumero_in_range, or_zero_number by assumption.
  destruct (toLocaleString_es_CO_shape (or_zero v) d) as (s & -> & Hs);
    [apply finite_or_zero, Hv | assumption |].
  exists s. split; [reflexivity | assumption].
Qed.

Lemma formatoNumero_grouped_witness :
  exists s, formatoNumero (VNumber 1234.56) (Some 2) = Normal s /\ grouped_shape 2 s.
Proof.
  apply (formatoNumero_grouped 1234.56 2); [reflexivity | lia].
Defined.

(** C3 as stated fails above 100 digits: the locale primitive rejects the
    digit count, the exception is caught and the result is "0", which has
    no decimal part. *)
Lemma formatoNumero_101_digits :
  finite 1234.5 = true
  /\ formatoNumero (VNumber 1234.5) (Some 101) = Normal "0"%string
  /\ ~ grouped_shape 101 "0".
Proof.
  split; [reflexivity|]. split; [reflexivity|].
  intros (negative & lead & clusters & frac & E & _ & _ & _ & Hlen & _).
  apply (f_equal (@length ascii)) in E.
  rewrite !length_app in E. simpl in E. lia.
Qed.

(** ** C2 and C5: non-numeric input *)

(** C2, as amended: for every non-numeric or missing input, with the
    default options, formatoNumero returns "0", formatoMoneda returns "$0"
    and formatoPorcentaje returns "0,0%" (its default is one decimal). *)
Theorem non_numeric_defaults (numero : JsValue) :
  non_numeric numero = true ->
  formatoNumero numero None = Normal "0"%string
  /\ formatoMoneda numero None None = Normal "$0"%string
  /\ formatoPorcentaje numero None = Normal "0,0%"%string.
Proof.
  intros H. apply or_zero_non_numeric in H.
  unfold formatoMoneda, formatoNumero, formatoPorcentaje. rewrite H.
  repeat split; reflexivity.
Qed.

Lemma non_numeric_defaults_witness :
  formatoNumero (VString "sin dato") None = Normal "0"%string
  /\ formatoMoneda (VString "sin dato") None None = Normal "$0"%string
  /\ formatoPorcentaje (VString "sin dato") None = Normal "0,0%"%string.
Proof.
  apply (non_numeric_defaults (VString "sin dato")). reflexivity.
Defined.

(** C2 as stated fails for the percentage: with its default of one decimal
    a non-numeric input prints as "0,0%", not "0%". *)
Lemma formatoPorcentaje_non_numeric_default :
  non_numeric (VString "abc") = true
  /\ formatoPorcentaje (VString "abc") None = Normal "0,0%"%string
  /\ formatoPorcentaje (VString "abc") None <> Normal "0%"%string.
Proof.
  split; [reflexivity|]. split; [reflexivity|].
  intros H. vm_compute in H. discriminate H.
Qed.

(** C5: a non-numeric input (the empty string, null, an absent value,
    non-numeric text) gives, in each of the four operations, exactly the
    result of the number 0 under the same options; and no operation raises,
    whatever its arguments. *)
Theorem non_numeric_as_zero (numero : JsValue) (simbolo : option string)
    (decimales : option Z) :
  (non_numeric numero = true ->
     formatoNumero numero decimales = formatoNumero (VNumber 0) decimales
     /\ formatoMoneda numero simbolo decimales
        = formatoMoneda (VNumber 0) simbolo decimales
     /\ formatoPorcentaje numero decimales
        = formatoPorcentaje (VNumber 0) decimales
     /\ formatoCompacto numero = formatoCompacto (VNumber 0))
  /\ (exists s, formatoNumero numero decimales = Normal s)
  /\ (exists s, formatoMoneda numero simbolo decimales = Normal s)
  /\ (exists s, formatoPorcentaje numero decimales = Normal s)
  /\ (exists s, formatoCompacto numero = Normal s).
Proof.
  split.
  - intros H. apply or_zero_non_numeric in H.
    unfold formatoMoneda, formatoNumero, formatoPorcentaje, formatoCompacto.
    rewrite H, coerce_zero. repeat split; reflexivity.
  - repeat split; auto with total.
Qed.

Lemma non_numeric_as_zero_witness :
  formatoNumero VNull (Some 2) = formatoNumero (VNumber 0) (Some 2)
  /\ formatoMoneda VNull (Some "US$"%string) (Some 2)
     = formatoMoneda (VNumber 0) (Some "US$"%string) (Some 2)
  /\ formatoPorcentaje VNull (Some 2) = formatoPorcentaje (VNumber 0) (Some 2)
  /\ formatoCompacto VNull = formatoCompacto (VNumber 0).
Proof.
  apply (non_numeric_as_zero VNull (Some "US$"%string) (Some 2)). reflexivity.
Defined.

(** ** C6: formatoMoneda *)

(** C6: formatoMoneda(v, s, d) is the symbol followed, with nothing in
    between, by formatoNumero(v, d), for every value, symbol and digit count
    (a left-out argument taking its default, "$" and 0); and
    formatoMoneda(100000) = "$100.000",
    formatoMoneda(1500000.50, "$", 2) = "$1.500.000,50". *)
Theorem formatoMoneda_is_symbol_then_number :
  (forall (numero : JsValue) (simbolo : option string) (decimales : option Z),
     exists r, formatoNumero numero (Some (default 0 decimales)) = Normal r
               /\ formatoMoneda numero simbolo decimales
                  = Normal (default "$"%string simbolo +:+ r))
  /\ formatoMoneda (VNumber 100000) None None = Normal "$100.000"%string
  /\ formatoMoneda (VNumber 1500000.50) (Some "$"%string) (Some 2)
     = Normal "$1.500.000,50"%string.
Proof.
  split; [| split; reflexivity].
  intros numero simbolo decimales.
  destruct (formatoNumero_total numero (Some (default 0 decimales))) as [r Hr].
  exists r. split; [assumption|].
  unfold formatoMoneda. rewrite Hr. reflexivity.
Qed.

(** ** C10: digit counts the locale primitive rejects *)

(** C10, as amended: formatoNumero returns a string for every digit count.
    Above 100 the locale primitive rejects the count, the exception is
    caught and the result is "0".  A count of zero or less never reaches
    the primitive: the guard [decimales > 0] sends it to the branch without
    decimals, and the result is that of a count of 0. *)
Theorem formatoNumero_any_digit_count (numero : JsValue) (decimales : Z) :
  (100 < decimales -> formatoNumero numero (Some decimales) = Normal "0"%string)
  /\ (decimales <= 0 ->
      formatoNumero numero (Some decimales) = formatoNumero numero (Some 0))
  /\ (exists s, formatoNumero numero (Some decimales) = Normal s).
Proof.
  split; [| split].
  - intros H. unfold formatoNumero, toLocaleString_es_CO. simpl.
    decide_comparisons. reflexivity.
  - intros H. unfold formatoNumero. simpl.
    decide_comparisons. reflexivity.
  - apply formatoNumero_total.
Qed.

Lemma formatoNumero_any_digit_count_witness :
  formatoNumero (VNumber 1234) (Some 101) = Normal "0"%string
  /\ formatoNumero (VNumber 1234) (Some (-1)) = formatoNumero (VNumber 1234) (Some 0).
Proof.
  split.
  - apply (formatoNumero_any_digit_count (VNumber 1234) 101). lia.
  - apply (formatoNumero_any_digit_count (VNumber 1234) (-1)). lia.
Defined.

(** C10 as stated fails for a negative count: the result is the number
    without decimals, not "0". *)
Lemma formatoNumero_negative_digit_count :
  toLocaleString_es_CO 1234 (-1) (-1) = Throw RangeError
  /\ formatoNumero (VNumber 1234) (Some (-1)) = Normal "1.234"%string
  /\ formatoNumero (VNumber 1234) (Some (-1)) <> Normal "0"%string.
Proof.
  split; [reflexivity|]. split; [reflexivity|].
  intros H. vm_compute in H. discriminate H.
Qed.

(** ** C4: formatoPorcentaje *)

Lemma toLocaleString_es_CO_total (x : float) (d : Z) :
  0 <= d <= 100 -> exists s, toLocaleString_es_CO x d d = Normal s.
Proof.
  intros Hd. unfold toLocaleString_es_CO.
  decide_comparisons. simpl.
  destruct (Prim2SF x); eauto.
Qed.

(** C4: formatoPorcentaje multiplies the coerced value by 100 exactly when
    it is strictly below 1 and otherwise keeps it; the magnitude is printed
    by the locale primitive formatoNumero uses (so a finite magnitude has
    the grouped shape with [d] decimals) and "%" follows with no space.
    formatoPorcentaje(1) = "1,0%", formatoPorcentaje(0.855) = "85,5%",
    formatoPorcentaje(75, 0) = "75%". *)
Theorem formatoPorcentaje_scaling :
  (forall (numero : JsValue) (d : Z), 0 <= d <= 100 ->
     let x := or_zero (parseFloat numero) in
     let porcentaje := if (x <? 1)%float then (x * 100)%float else x in
     exists s, toLocaleString_es_CO porcentaje d d = Normal s
               /\ formatoPorcentaje numero (Some d) = Normal (s +:+ "%")
               /\ (finite porcentaje = true -> grouped_shape (Z.to_nat d) s))
  /\ formatoPorcentaje (VNumber 1) None = Normal "1,0%"%string
  /\ formatoPorcentaje (VNumber 0.855) None = Normal "85,5%"%string
  /\ formatoPorcentaje (VNumber 75) (Some 0) = Normal "75%"%string.
Proof.
  split; [| repeat split; reflexivity].
  intros numero d Hd x porcentaje.
  destruct (toLocaleString_es_CO_total porcentaje d Hd) as [s Hs].
  exists s. split; [assumption|]. split.
  - unfold formatoPorcentaje. simpl. fold x. fold porcentaje. rewrite Hs. reflexivity.
  - intros Hfin.
    destruct (toLocaleString_es_CO_shape porcentaje d Hfin Hd) as (s' & Hs' & Hshape).
    congruence.
Qed.

Lemma formatoPorcentaje_scaling_witness :
  exists s, toLocaleString_es_CO (0.5 * 100)%float 1 1 = Normal s
            /\ formatoPorcentaje (VString "0.5") (Some 1) = Normal (s +:+ "%")
            /\ (finite (0.5 * 100)%float = true -> grouped_shape 1 s).
Proof.
  apply (proj1 formatoPorcentaje_scaling (VString "0.5") 1). lia.
Defined.

(** ** The declarative pass *)

Lemma formatearElemento_formateado (elemento : Element) :
  formatearElemento elemento = Normal (formateado elemento).
Proof.
  unfold formateado.
  assert (exists e', formatearElemento elemento = Normal e') as [e' ->]; [|reflexivity].
  unfold formatearElemento.
  set (valor := VNumber _). set (decimales := Some _).
  repeat case_match; simpl; eauto.
  - destruct (formatoNumero_total valor decimales) as [s ->]. simpl. eauto.
  - destruct (formatoMoneda_total valor
                (Some (or_dollar (getAttribute elemento "data-simbolo"))) decimales)
      as [s ->]. simpl. eauto.
  - destruct (formatoPorcentaje_total valor decimales) as [s ->]. simpl. eauto.
  - destruct (formatoCompacto_total valor) as [s ->]. simpl. eauto.
Qed.

Lemma formateado_unrecognized (elemento : Element) :
  recognized (default ""%string (getAttribute elemento "data-format")) = false ->
  formateado elemento = elemento.
Proof.
  unfold recognized, formateado, formatearElemento. intros H.
  apply orb_false_iff in H as [H H4].
  apply orb_false_iff in H as [H H3].
  apply orb_false_iff in H as [H1 H2].
  rewrite H1, H2, H3, H4. reflexivity.
Qed.

Section ForEach.

(** What the callback makes of an element. *)
Variable formatted : Element -> Element.

Lemma visited_lookup (document : list Element) (i j : nat) :
  visited formatted document i !! j
  = if decide (j = i) then formatted <$> document !! j else document !! j.
Proof.
  unfold visited. destruct (decide (j = i)) as [-> | Hne].
  - destruct (document !! i) as [e|] eqn:E; simpl; [|exact E].
    apply list_lookup_insert_eq. eapply lookup_lt_Some, E.
  - destruct (document !! i); [|reflexivity].
    apply list_lookup_insert_ne. congruence.
Qed.

Lemma foldl_visited_lookup (selected : list nat) :
  forall (document : list Element) (j : nat),
    NoDup selected ->
    foldl (visited formatted) document selected !! j
    = if decide (j ∈ selected) then formatted <$> document !! j else document !! j.
Proof.
  induction selected as [|i rest IH]; intros document j Hnd; simpl.
  - destruct (decide (j ∈ [])) as [Hin|]; [|reflexivity].
    exfalso. eapply not_elem_of_nil, Hin.
  - apply NoDup_cons in Hnd as [Hi Hrest].
    rewrite IH, visited_lookup by assumption.
    destruct (decide (j = i)) as [-> | Hne].
    + destruct (decide (i ∈ rest)); [contradiction|].
      destruct (decide (i ∈ i :: rest)) as [|Hout]; [reflexivity|].
      exfalso. apply Hout, list_elem_of_here.
    + destruct (decide (j ∈ rest)) as [Hin | Hout];
        destruct (decide (j ∈ i :: rest)) as [Hin' | Hout']; try reflexivity.
      * exfalso. apply Hout', list_elem_of_further, Hin.
      * exfalso. apply elem_of_cons in Hin' as [?|?]; contradiction.
Qed.

End ForEach.

Lemma forEach_foldl (selected : list nat) : forall document : list Element,
  forEach selected document = Normal (foldl (visited formateado) document selected).
Proof.
  induction selected as [|i rest IH]; intros document; simpl; [reflexivity|].
  unfold visit, visited.
  destruct (document !! i) as [e|]; simpl.
  - rewrite formatearElemento_formateado. simpl. apply IH.
  - apply IH.
Qed.

Lemma querySelectorAll_data_format_NoDup (document : list Element) :
  NoDup (querySelectorAll_data_format document).
Proof. apply NoDup_filter, NoDup_seq. Qed.

Lemma querySelectorAll_data_format_elem (document : list Element) (i : nat) :
  i ∈ querySelectorAll_data_format document
  <-> exists e, document !! i = Some e /\ is_Some (getAttribute e "data-format").
Proof.
  unfold querySelectorAll_data_format. rewrite list_elem_of_filter, elem_of_seq.
  split.
  - intros [[f Hf] _]. destruct (document !! i) as [e|]; [|discriminate].
    exists e. split; [reflexivity | exists f; exact Hf].
  - intros (e & He & Hf). rewrite He. split; [exact Hf|].
    apply lookup_lt_Some in He. lia.
Qed.

(** The pass formats every element of the page in place and raises nothing. *)
Lemma formatearElementos_fmap (document : list Element) :
  formatearElementos document = Normal (formateado <$> document).
Proof.
  unfold formatearElementos. rewrite forEach_foldl. f_equal.
  apply list_eq. intros j.
  rewrite foldl_visited_lookup by apply querySelectorAll_data_format_NoDup.
  rewrite list_lookup_fmap.
  destruct (decide (j ∈ querySelectorAll_data_format document)) as [Hin | Hout];
    [reflexivity|].
  destruct (document !! j) as [e|] eqn:E; [|reflexivity]. simpl. f_equal.
  symmetry. apply formateado_unrecognized.
  destruct (getAttribute e "data-format") as [f|] eqn:F; [|reflexivity].
  exfalso. apply Hout, querySelectorAll_data_format_elem.
  exists e. split; [assumption | rewrite F; eauto].
Qed.

(** On a page of elements that own their text, an element whose data-format
    value is none of "numero", "moneda", "porcentaje", "compacto" is exactly
    as it was after the pass, and the pass raises nothing. *)
Lemma unrecognized_left_untouched (document : list Element) (i : nat)
    (elemento : Element) :
  document !! i = Some elemento ->
  recognized (default ""%string (getAttribute elemento "data-format")) = false ->
  exists document',
    formatearElementos document = Normal document'
    /\ document' !! i = Some elemento.
Proof.
  intros Hi Hf. exists (formateado <$> document).
  split; [apply formatearElementos_fmap|].
  rewrite list_lookup_fmap, Hi. simpl. f_equal.
  apply formateado_unrecognized, Hf.
Qed.

(** ** C1: the digit count the pass hands on *)

(** C1, as amended: when an element's data-decimales attribute is missing
    or does not parse, the pass hands the digit count 0 to the operation it
    dispatches to, whatever the mode: formatoNumero and formatoMoneda then
    print as with their own default, and formatoPorcentaje prints with 0
    decimals. *)
Theorem pass_without_decimales (document : list Element) (i : nat)
    (elemento : Element) :
  document !! i = Some elemento ->
  parseInt (getAttribute elemento "data-decimales") = None ->
  let valor := VNumber (or_zero (parseFloat (VString (textContent elemento)))) in
  let simbolo := or_dollar (getAttribute elemento "data-simbolo") in
  exists document',
    formatearElementos document = Normal document'
    /\ (getAttribute elemento "data-format" = Some "numero"%string ->
        exists s, formatoNumero valor None = Normal s
                  /\ document' !! i = Some (set_textContent elemento s))
    /\ (getAttribute elemento "data-format" = Some "moneda"%string ->
        exists s, formatoMoneda valor (Some simbolo) None = Normal s
                  /\ document' !! i = Some (set_textContent elemento s))
    /\ (getAttribute elemento "data-format" = Some "porcentaje"%string ->
        exists s, formatoPorcentaje valor (Some 0) = Normal s
                  /\ document' !! i = Some (set_textContent elemento s)).
Proof.
  intros Hi Hd valor simbolo. exists (formateado <$> document).
  split; [apply formatearElementos_fmap|].
  rewrite list_lookup_fmap, Hi. simpl.
  unfold formateado, formatearElemento. rewrite Hd. fold valor. fold simbolo.
  repeat split; intros ->; simpl.
  - destruct (formatoNumero_total valor None) as [s Hs]. exists s.
    split; [assumption|].
    change (formatoNumero valor (Some 0)) with (formatoNumero valor None).
    rewrite Hs. reflexivity.
  - destruct (formatoMoneda_total valor (Some simbolo) None) as [s Hs]. exists s.
    split; [assumption|].
    change (formatoMoneda valor (Some simbolo) (Some 0))
      with (formatoMoneda valor (Some simbolo) None).
    rewrite Hs. reflexivity.
  - destruct (formatoPorcentaje_total valor (Some 0)) as [s Hs]. exists s.
    split; [assumption|]. rewrite Hs. reflexivity.
Qed.

Lemma pass_without_decimales_witness :
  let elemento := mkElement {[ "data-format"%string := "porcentaje"%string ]} "0.5" in
  exists document',
    formatearElementos [elemento] = Normal document'
    /\ exists s, formatoPorcentaje (VNumber 0.5) (Some 0) = Normal s
                 /\ document' !! 0%nat = Some (set_textContent elemento s).
Proof.
  intros elemento.
  destruct (pass_without_decimales [elemento] 0 elemento) as (document' & Hpass & _ & _ & Hp).
  - reflexivity.
  - vm_compute. reflexivity.
  - exists document'. split; [exact Hpass|]. apply Hp. vm_compute. reflexivity.
Defined.

(** C1 as stated fails for "porcentaje": without data-decimales the pass
    prints 0.5 as "50%", while formatoPorcentaje with its own default of one
    decimal prints "50,0%". *)
Lemma porcentaje_without_decimales :
  let elemento := mkElement {[ "data-format"%string := "porcentaje"%string ]} "0.5" in
  getAttribute elemento "data-decimales" = None
  /\ formatearElementos [elemento] = Normal [set_textContent elemento "50%"]
  /\ formatoPorcentaje (VNumber 0.5) None = Normal "50,0%"%string
  /\ formatearElementos [elemento]
     <> (s ← formatoPorcentaje (VNumber 0.5) None; mret [set_textContent elemento s]).
Proof.
  repeat split; try reflexivity.
  intros H. vm_compute in H. discriminate H.
Qed.

(** ** C9: parseFloat reads a numeric prefix *)

Lemma chars_app (a b : string) : chars (a +:+ b) = chars a ++ chars b.
Proof. induction a as [|c a IH]; simpl; [reflexivity | rewrite IH; reflexivity]. Qed.

Lemma digit_is_plain (c : ascii) :
  is_digit c = true ->
  (c =? "-")%char = false /\ (c =? "+")%char = false /\ (c =? ".")%char = false
  /\ (c =? "I")%char = false /\ is_ascii_space c = false /\ code c < 194.
Proof.
  destruct c as [[] [] [] [] [] [] [] []]; vm_compute; intros H;
    try discriminate H; repeat split; discriminate.
Qed.

Lemma exponent_letter_is_plain (c : ascii) :
  ((c =? "e")%char || (c =? "E")%char) = true ->
  is_digit c = false /\ (c =? ".")%char = false.
Proof.
  destruct c as [[] [] [] [] [] [] [] []]; vm_compute; intros H;
    try discriminate H; split; reflexivity.
Qed.

Lemma starts_with_Infinity_none (c : ascii) (l : list ascii) :
  (c =? "I")%char = false -> starts_with (chars "Infinity") (c :: l) = None.
Proof.
  destruct c as [[] [] [] [] [] [] [] []]; intros H; try reflexivity.
  vm_compute in H. discriminate H.
Qed.

Lemma trim_start_spaces (ws l : list ascii) :
  forallb is_ascii_space ws = true -> trim_start (ws ++ l) = trim_start l.
Proof.
  induction ws as [|c ws IH]; simpl; [reflexivity|].
  intros [Hc Hws]%andb_true_iff. rewrite Hc. apply IH, Hws.
Qed.

Lemma trim_start_plain (c : ascii) (l : list ascii) :
  is_ascii_space c = false -> code c < 194 -> trim_start (c :: l) = c :: l.
Proof.
  intros Hs Hc. simpl. rewrite Hs.
  assert (forall b, is_space2 c b = false) as H2.
  { intros b. unfold is_space2. decide_comparisons. reflexivity. }
  assert (forall b d, is_space3 c b d = false) as H3.
  { intros b d. unfold is_space3.
    decide_comparisons. reflexivity. }
  destruct l as [|b [|d l]]; rewrite ?H2, ?H3; reflexivity.
Qed.

Lemma take_digits_app (ds rest : list ascii) :
  all_digits ds = true -> take_digits rest = ([], rest) ->
  take_digits (ds ++ rest) = (ds, rest).
Proof.
  intros Hds Hrest. induction ds as [|c ds IH]; simpl; [assumption|].
  simpl in Hds. apply andb_true_iff in Hds as [Hc Hds].
  rewrite Hc, (IH Hds). reflexivity.
Qed.

Lemma take_digits_stop (c : ascii) (l : list ascii) :
  is_digit c = false -> take_digits (c :: l) = ([], c :: l).
Proof. intros H. simpl. rewrite H. reflexivity. Qed.

Lemma scan_exponent_none (l : list ascii) :
  starts_exponent l = false -> scan_exponent l = (0, l).
Proof.
  destruct l as [|c r]; [reflexivity|]. unfold starts_exponent, scan_exponent.
  destruct ((c =? "e")%char || (c =? "E")%char); [|reflexivity]. simpl.
  destruct (scan_sign r) as [neg r1]. simpl.
  destruct r1 as [|d r1]; [reflexivity|]. intros Hd.
  rewrite (take_digits_stop d r1 Hd). reflexivity.
Qed.

Section NumericPrefix.

Variable p : NumericPrefix.
Variable t : string.
Hypothesis Hvalid : valid_prefix p = true.
Hypothesis Htrailing : non_numeric_trailing t = true.

Lemma trailing_no_digit : take_digits (chars t) = ([], chars t).
Proof using Htrailing.
  unfold non_numeric_trailing in Htrailing.
  destruct (chars t) as [|c r]; [reflexivity|].
  apply take_digits_stop. destruct (is_digit c); [discriminate | reflexivity].
Qed.

Lemma trailing_no_dot :
  match chars t with c :: _ => (c =? ".")%char = false | [] => True end.
Proof using Htrailing.
  unfold non_numeric_trailing in Htrailing.
  destruct (chars t) as [|c r]; [exact I|].
  destruct (is_digit c), (c =? ".")%char; try discriminate; reflexivity.
Qed.

Lemma trailing_no_exponent : scan_exponent (chars t) = (0, chars t).
Proof using Htrailing.
  apply scan_exponent_none. unfold non_numeric_trailing in Htrailing.
  destruct (chars t) as [|c r]; [reflexivity|].
  destruct (starts_exponent (c :: r)); [|reflexivity].
  rewrite andb_false_r in Htrailing. discriminate.
Qed.

Lemma valid_parts :
  forallb is_ascii_space (pre_space p) = true
  /\ all_digits (pre_int p) = true /\ all_digits (frac_digits p) = true
  /\ (pre_int p ++ frac_digits p <> [])
  /\ match pre_exp p with
     | Some (c, _, ds) =>
         ((c =? "e")%char || (c =? "E")%char) = true
         /\ all_digits ds = true /\ ds <> []
     | None => True
     end.
Proof using Hvalid.
  unfold valid_prefix in Hvalid.
  repeat (apply andb_true_iff in Hvalid as [Hvalid ?]).
  repeat split; try assumption.
  - intros E. rewrite E in *. discriminate.
  - destruct (pre_exp p) as [[[c s] ds]|]; [|exact I].
    match goal with H : _ && _ = true |- _ =>
      apply andb_true_iff in H as [H Hne]; apply andb_true_iff in H as [Hc Hds] end.
    repeat split; try assumption. intros ->. discriminate.
Qed.

Lemma exponent_no_digit :
  take_digits (exponent_chars p ++ chars t) = ([], exponent_chars p ++ chars t).
Proof using Hvalid Htrailing.
  destruct valid_parts as (_ & _ & _ & _ & He). unfold exponent_chars.
  destruct (pre_exp p) as [[[c s] ds]|]; [|apply trailing_no_digit].
  destruct He as (Hc & _). apply exponent_letter_is_plain in Hc as [Hc _].
  apply take_digits_stop, Hc.
Qed.

Lemma exponent_no_dot :
  match exponent_chars p ++ chars t with
  | c :: _ => (c =? ".")%char = false
  | [] => True
  end.
Proof using Hvalid Htrailing.
  destruct valid_parts as (_ & _ & _ & _ & He). unfold exponent_chars.
  destruct (pre_exp p) as [[[c s] ds]|]; [|apply trailing_no_dot].
  destruct He as (Hc & _). apply exponent_letter_is_plain in Hc as [_ Hc]. exact Hc.
Qed.

Lemma scan_exponent_prefix :
  scan_exponent (exponent_chars p ++ chars t) = (exponent_value p, chars t).
Proof using Hvalid Htrailing.
  destruct valid_parts as (_ & _ & _ & _ & He).
  unfold exponent_chars, exponent_value.
  destruct (pre_exp p) as [[[c s] ds]|]; [|apply trailing_no_exponent].
  destruct He as (Hc & Hds & Hne). simpl. rewrite Hc.
  assert (scan_sign ((sign_opt_chars s ++ ds) ++ chars t)
          = (default false s, ds ++ chars t)) as ->.
  { destruct s as [[]|]; try reflexivity. simpl.
    destruct ds as [|d ds]; [contradiction|]. simpl in Hds |- *.
    apply andb_true_iff in Hds as [Hd _].
    apply digit_is_plain in Hd as (-> & -> & _). reflexivity. }
  rewrite (take_digits_app ds (chars t) Hds trailing_no_digit).
  destruct ds as [|d ds]; [contradiction|].
  destruct s as [[]|]; reflexivity.
Qed.

Lemma scan_unsigned_prefix (negative : bool) :
  scan_unsigned negative (pre_int p ++ fraction_chars p ++ exponent_chars p ++ chars t)
  = Some (LitDecimal negative (pre_int p) (frac_digits p) (exponent_value p), chars t).
Proof using Hvalid Htrailing.
  destruct valid_parts as (_ & Hint & Hfrac & Hne & _).
  unfold scan_unsigned.
  assert (starts_with (chars "Infinity")
            (pre_int p ++ fraction_chars p ++ exponent_chars p ++ chars t) = None) as ->.
  { unfold fraction_chars, frac_digits in *.
    destruct (pre_int p) as [|d ds].
    - destruct (pre_frac p) as [f|]; [reflexivity | contradiction].
    - simpl in Hint. apply andb_true_iff in Hint as [Hd _].
      apply digit_is_plain in Hd as (_ & _ & _ & Hd & _).
      apply starts_with_Infinity_none, Hd. }
  assert (take_digits (fraction_chars p ++ exponent_chars p ++ chars t)
          = ([], fraction_chars p ++ exponent_chars p ++ chars t)) as Hstop.
  { unfold fraction_chars. destruct (pre_frac p); [reflexivity|].
    apply exponent_no_digit. }
  rewrite (take_digits_app _ _ Hint Hstop).
  assert (match fraction_chars p ++ exponent_chars p ++ chars t with
          | c :: r => if (c =? ".")%char then take_digits r
                      else ([], fraction_chars p ++ exponent_chars p ++ chars t)
          | [] => ([], fraction_chars p ++ exponent_chars p ++ chars t)
          end = (frac_digits p, exponent_chars p ++ chars t)) as ->.
  { unfold fraction_chars, frac_digits in *.
    destruct (pre_frac p) as [f|]; simpl.
    - apply take_digits_app; [assumption | apply exponent_no_digit].
    - pose proof exponent_no_dot as Hdot.
      destruct (exponent_chars p ++ chars t) as [|c r]; [reflexivity|].
      rewrite Hdot. reflexivity. }
  rewrite scan_exponent_prefix.
  destruct (pre_int p), (frac_digits p); try reflexivity. contradiction.
Qed.

Lemma scan_literal_prefix :
  scan_literal (trim_start (prefix_chars p ++ chars t))
  = Some (LitDecimal (default false (pre_sign p)) (pre_int p) (frac_digits p)
                     (exponent_value p), chars t).
Proof using Hvalid Htrailing.
  destruct valid_parts as (Hws & Hint & Hfrac & Hne & _).
  unfold prefix_chars.
  rewrite <- !app_assoc, (trim_start_spaces _ _ Hws).
  set (body := pre_int p ++ fraction_chars p ++ exponent_chars p ++ chars t).
  assert (exists c r, body = c :: r /\ (c =? "-")%char = false
                      /\ (c =? "+")%char = false
                      /\ is_ascii_space c = false /\ code c < 194)
    as (c & r & Hbody & Hm & Hp & Hs & Hc).
  { unfold body, fraction_chars, frac_digits in *.
    destruct (pre_int p) as [|d ds].
    - destruct (pre_frac p) as [f|]; [|contradiction].
      eexists _, _. split; [reflexivity|]. repeat split; reflexivity.
    - simpl in Hint. apply andb_true_iff in Hint as [Hd _].
      apply digit_is_plain in Hd as (? & ? & _ & _ & ? & ?).
      eexists _, _. split; [reflexivity|]. repeat split; assumption. }
  unfold scan_literal.
  assert (trim_start (sign_opt_chars (pre_sign p) ++ body)
          = sign_opt_chars (pre_sign p) ++ body) as ->.
  { destruct (pre_sign p) as [[]|]; simpl sign_opt_chars; simpl app.
    - apply trim_start_plain; reflexivity.
    - apply trim_start_plain; reflexivity.
    - rewrite Hbody. apply trim_start_plain; assumption. }
  assert (scan_sign (sign_opt_chars (pre_sign p) ++ body)
          = (default false (pre_sign p), body)) as ->.
  { destruct (pre_sign p) as [[]|]; try reflexivity.
    simpl. rewrite Hbody. simpl. rewrite Hm, Hp. reflexivity. }
  apply scan_unsigned_prefix.
Qed.

Lemma parseFloat_prefix :
  parseFloat (VString (text (prefix_chars p) +:+ t)) = prefix_value p.
Proof using Hvalid Htrailing.
  unfold parseFloat, ToString, parseFloat_string.
  rewrite chars_app, chars_text, scan_literal_prefix. reflexivity.
Qed.

End NumericPrefix.

Lemma append_empty (s : string) : s +:+ "" = s.
Proof.
  induction s as [|c s IH]; [reflexivity|].
  change (String c (s +:+ "") = String c s). rewrite IH. reflexivity.
Qed.

Lemma formatearElemento_text (attrs : gmap string string) (s1 s2 : string) :
  recognized (default ""%string (attrs !! "data-format"%string)) = true ->
  parseFloat (VString s1) = parseFloat (VString s2) ->
  formatearElemento (mkElement attrs s1) = formatearElemento (mkElement attrs s2).
Proof.
  unfold recognized, formatearElemento, getAttribute, set_textContent. simpl.
  intros Hr ->.
  repeat case_match; try reflexivity.
  repeat match goal with H : (_ =? _)%string = false |- _ => rewrite H in Hr; clear H end.
  discriminate Hr.
Qed.

Lemma digits_value_nonneg (l : list ascii) :
  all_digits l = true -> 0 <= digits_value l.
Proof.
  unfold digits_value, all_digits.
  assert (forall acc, 0 <= acc -> forallb is_digit l = true ->
            0 <= fold_left (fun acc c => 10 * acc + digit_value c) l acc) as H;
    [|apply H; lia].
  induction l as [|c l IH]; intros acc Hacc; simpl; [trivial|].
  intros [Hc Hl]%andb_true_iff. apply IH; [|exact Hl].
  unfold is_digit in Hc. apply andb_true_iff in Hc as [Hc _].
  apply Z.leb_le in Hc. unfold digit_value. lia.
Qed.

(** *** Reading digits: integers below 2^53 *)

Lemma digits2_pos_bounds (p : positive) :
  2 ^ (Zpos (digits2_pos p) - 1) <= Zpos p < 2 ^ Zpos (digits2_pos p).
Proof.
  induction p as [p IH | p IH |]; cbn [digits2_pos].
  - rewrite Pos2Z.inj_succ.
    replace (Z.succ (Zpos (digits2_pos p)) - 1) with (Z.succ (Zpos (digits2_pos p) - 1)) by lia.
    rewrite !Z.pow_succ_r by lia. lia.
  - rewrite Pos2Z.inj_succ.
    replace (Z.succ (Zpos (digits2_pos p)) - 1) with (Z.succ (Zpos (digits2_pos p) - 1)) by lia.
    rewrite !Z.pow_succ_r by lia. lia.
  - simpl. lia.
Qed.

Lemma digits2_pos_unique (p : positive) (k : Z) :
  2 ^ (k - 1) <= Zpos p < 2 ^ k -> Zpos (digits2_pos p) = k.
Proof.
  intros [Hlo Hhi]. pose proof (digits2_pos_bounds p) as [Hlo' Hhi'].
  assert (0 < k).
  { destruct (Z.ltb_spec 0 k) as [|Hk]; [assumption|].
    assert (2 ^ k <= 2 ^ 0) by (apply Z.pow_le_mono_r; lia). simpl in *. lia. }
  assert (k - 1 < Zpos (digits2_pos p)).
  { apply (Z.pow_lt_mono_r_iff 2); lia. }
  assert (Zpos (digits2_pos p) - 1 < k).
  { apply (Z.pow_lt_mono_r_iff 2); lia. }
  lia.
Qed.

Lemma iter_xO_shift (p k : positive) :
  Zpos (Pos.iter xO p k) = Zpos p * 2 ^ Zpos k.
Proof.
  induction k as [|k IH] using Pos.peano_ind.
  - simpl. lia.
  - rewrite Pos.iter_succ, Pos2Z.inj_succ, Z.pow_succ_r by lia.
    rewrite Pos2Z.inj_xO, IH. lia.
Qed.

Lemma binary_round_aux_exact (s : bool) (X : positive) (e : Z) :
  Zpos (digits2_pos X) = 53 -> -1074 <= e <= 971 ->
  binary_round_aux prec emax s (Zpos X) e loc_Exact = S754_finite s X e.
Proof.
  intros Hd He. unfold binary_round_aux, shr_fexp.
  cbn [Zdigits2 shr_record_of_loc]. rewrite Hd.
  assert (fexp prec emax (53 + e) - e = 0) as ->
    by (unfold fexp, emin, prec, emax; lia).
  cbn [shr shr_m loc_of_shr_record round_nearest_even Zdigits2 shr_record_of_loc].
  rewrite Hd.
  assert (fexp prec emax (53 + e) - e = 0) as ->
    by (unfold fexp, emin, prec, emax; lia).
  cbn [shr shr_m].
  replace (e <=? emax - prec) with true; [reflexivity|].
  symmetry. apply Z.leb_le. unfold emax, prec. lia.
Qed.

Lemma binary_round_aux_shifted (s : bool) (X : positive) (e : Z) :
  Zpos (digits2_pos X) = 53 -> -1074 <= e <= 971 ->
  binary_round_aux prec emax s (Zpos (xO X)) (e - 1) loc_Exact = S754_finite s X e.
Proof.
  intros Hd He. rewrite <- (binary_round_aux_exact s X e Hd He).
  unfold binary_round_aux, shr_fexp.
  cbn [Zdigits2 shr_record_of_loc digits2_pos]. rewrite Pos2Z.inj_succ, Hd.
  assert (fexp prec emax (Z.succ 53 + (e - 1)) - (e - 1) = 1) as ->
    by (unfold fexp, emin, prec, emax; lia).
  assert (fexp prec emax (53 + e) - e = 0) as ->
    by (unfold fexp, emin, prec, emax; lia).
  cbn [shr iter_pos shr_1 orb].
  replace (e - 1 + 1) with e by lia. reflexivity.
Qed.

Section ExactInteger.

Variable p : positive.
Hypothesis Hp : Zpos p < 2 ^ 53.


Lemma integer_digits : 1 <= (binary_digits p) <= 53.
Proof using Hp.
  pose proof (digits2_pos_bounds p) as [Hlo _]. fold ((binary_digits p)) in Hlo.
  split; [unfold binary_digits; lia|].
  assert ((binary_digits p) - 1 < 53); [|lia].
  apply (Z.pow_lt_mono_r_iff 2); lia.
Qed.

Lemma integer_mantissa : Zpos (normal_mantissa p) = Zpos p * 2 ^ (53 - (binary_digits p)).
Proof using Hp.
  pose proof integer_digits. unfold normal_mantissa. rewrite Z2Pos.id; [reflexivity|].
  apply Z.mul_pos_pos; [lia|]. apply Z.pow_pos_nonneg; lia.
Qed.

Lemma integer_mantissa_digits : Zpos (digits2_pos (normal_mantissa p)) = 53.
Proof using Hp.
  pose proof integer_digits as Hd.
  pose proof (digits2_pos_bounds p) as [Hlo Hhi]. fold ((binary_digits p)) in Hlo, Hhi.
  apply digits2_pos_unique. rewrite integer_mantissa.
  replace (2 ^ (53 - 1)) with (2 ^ ((binary_digits p) - 1) * 2 ^ (53 - (binary_digits p)))
    by (rewrite <- Z.pow_add_r by lia; f_equal; lia).
  replace (2 ^ 53) with (2 ^ (binary_digits p) * 2 ^ (53 - (binary_digits p)))
    by (rewrite <- Z.pow_add_r by lia; f_equal; lia).
  assert (0 < 2 ^ (53 - (binary_digits p))) by (apply Z.pow_pos_nonneg; lia).
  split; [apply Z.mul_le_mono_nonneg_r; lia | apply Z.mul_lt_mono_pos_r; lia].
Qed.

Lemma SFdiv_integer (s : bool) :
  SFdiv prec emax (S754_finite s p 0) (S754_finite false 1 0)
  = S754_finite s (normal_mantissa p) ((binary_digits p) - 53).
Proof using Hp.
  pose proof integer_digits as Hd.
  unfold SFdiv, SFdiv_core_binary. cbn [Zdigits2 digits2_pos]. fold ((binary_digits p)).
  assert (Z.min (fexp prec emax ((binary_digits p) + 0 - (1 + 0))) (0 - 0) = (binary_digits p) - 53 - 1) as ->
    by (unfold fexp, emin, prec, emax; lia).
  assert (0 - 0 - ((binary_digits p) - 53 - 1) = 54 - (binary_digits p)) as -> by lia.
  assert (match 54 - (binary_digits p) with
          | 0 => Zpos p
          | Zpos _ => Z.shiftl (Zpos p) (54 - (binary_digits p))
          | Zneg _ => 0
          end = Zpos (xO (normal_mantissa p))) as ->.
  { rewrite (Pos2Z.inj_xO ((normal_mantissa p))), integer_mantissa.
    destruct (54 - (binary_digits p)) as [|n|n] eqn:E; try lia.
    rewrite Z.shiftl_mul_pow2 by lia.
    replace (Zpos n) with (Z.succ (53 - (binary_digits p))) by lia.
    rewrite Z.pow_succ_r by lia. lia. }
  assert (Z.div_eucl (Zpos (xO (normal_mantissa p))) 1 = (Zpos (xO (normal_mantissa p)), 0)) as ->.
  { pose proof (Z.div_1_r (Zpos (xO (normal_mantissa p)))) as Hq.
    pose proof (Z.mod_1_r (Zpos (xO (normal_mantissa p)))) as Hr.
    unfold Z.div, Z.modulo in Hq, Hr.
    destruct (Z.div_eucl (Zpos (xO (normal_mantissa p))) 1) as [q r]. congruence. }
  change (new_location 1 0) with loc_Exact.
  rewrite Bool.xorb_false_r.
  apply binary_round_aux_shifted; [apply integer_mantissa_digits | lia].
Qed.

Lemma binary_normalize_integer :
  binary_normalize prec emax (Zpos p) 0 false = S754_finite false (normal_mantissa p) ((binary_digits p) - 53).
Proof using Hp.
  pose proof integer_digits as Hd.
  unfold binary_normalize, binary_round, shl_align. fold ((binary_digits p)).
  assert (fexp prec emax ((binary_digits p) + 0) = (binary_digits p) - 53) as ->
    by (unfold fexp, emin, prec, emax; lia).
  destruct ((binary_digits p) - 53 - 0) as [|n|n] eqn:E; try lia.
  - assert (p = (normal_mantissa p)) as <-.
    { apply Pos2Z.inj. rewrite integer_mantissa.
      replace (53 - (binary_digits p)) with 0 by lia. simpl. lia. }
    replace (binary_digits p - 53) with 0 by lia.
    apply binary_round_aux_exact; [|lia].
    unfold binary_digits in E. lia.
  - replace (Z.neg n) with (binary_digits p - 53) by lia.
    assert (Pos.iter xO p n = (normal_mantissa p)) as ->.
    { apply Pos2Z.inj. rewrite integer_mantissa, iter_xO_shift.
      f_equal. f_equal. lia. }
    apply binary_round_aux_exact; [apply integer_mantissa_digits | lia].
Qed.

End ExactInteger.

Lemma integer_Number_exact (p : positive) :
  Zpos p < 2 ^ 53 ->
  Prim2SF (integer_Number (Zpos p))
  = S754_finite false (normal_mantissa p) (binary_digits p - 53).
Proof.
  intros Hp. unfold integer_Number.
  rewrite of_uint63_spec, Uint63.of_Z_spec, Z.mod_small.
  - apply binary_normalize_integer, Hp.
  - split; [lia|]. eapply Z.lt_trans; [exact Hp|]. reflexivity.
Qed.

(** *** Reading digits: the hardware's quotient *)

Lemma new_location_scaled (t r j : Z) :
  0 < t -> 0 <= r < t -> 0 <= j ->
  new_location (t * 2 ^ j) (r * 2 ^ j) = new_location t r.
Proof.
  intros Ht Hr Hj.
  destruct (Z.eq_dec j 0) as [-> | Hj0]; [rewrite !Z.mul_1_r; reflexivity|].
  assert (0 < 2 ^ j) as Hc by (apply Z.pow_pos_nonneg; lia).
  unfold new_location.
  assert (Z.even (t * 2 ^ j) = true) as ->.
  { rewrite Z.even_mul, Z.even_pow by lia. apply Bool.orb_true_r. }
  assert ((2 * (r * 2 ^ j) ?= t * 2 ^ j) = (2 * r ?= t)) as Hcmp.
  { destruct (Z.compare_spec (2 * r) t);
      destruct (Z.compare_spec (2 * (r * 2 ^ j)) (t * 2 ^ j)); try reflexivity; nia. }
  destruct (Z.even t) eqn:E; unfold new_location_even, new_location_odd;
    rewrite Hcmp;
    (destruct (Z.eq_dec r 0) as [-> | Hr0]; [rewrite Z.mul_0_l; reflexivity|]);
    (assert ((r * 2 ^ j =? 0) = false) as -> by (apply Z.eqb_neq; nia));
    (assert ((r =? 0) = false) as -> by (apply Z.eqb_neq; lia));
    [reflexivity|]. f_equal.
  assert (Z.odd t = true) as Ho by (rewrite <- Z.negb_even, E; reflexivity).
  apply Z.odd_spec in Ho as [h Hh].
  destruct (Z.compare_spec (2 * r) t); destruct (Z.compare_spec (2 * r + 1) t);
    try reflexivity; lia.
Qed.

Lemma SFdiv_core_normalized (p t : positive) :
  Zpos p < 2 ^ 53 -> Zpos t < 2 ^ 53 ->
  SFdiv_core_binary prec emax (Zpos (normal_mantissa p)) (binary_digits p - 53)
                    (Zpos (normal_mantissa t)) (binary_digits t - 53)
  = SFdiv_core_binary prec emax (Zpos p) 0 (Zpos t) 0.
Proof.
  intros Hp Ht.
  pose proof (integer_digits p Hp) as Hdp. pose proof (integer_digits t Ht) as Hdt.
  unfold SFdiv_core_binary.
  pose proof (integer_mantissa_digits p Hp) as Hxp.
  pose proof (integer_mantissa_digits t Ht) as Hxt.
  cbn [Zdigits2]. rewrite Hxp, Hxt. fold (binary_digits p) (binary_digits t).
  set (e' := binary_digits p - binary_digits t - 53).
  assert (Z.min (fexp prec emax (53 + (binary_digits p - 53)
                                 - (53 + (binary_digits t - 53))))
                (binary_digits p - 53 - (binary_digits t - 53)) = e') as ->
    by (unfold fexp, emin, prec, emax, e'; lia).
  assert (Z.min (fexp prec emax (binary_digits p + 0 - (binary_digits t + 0))) (0 - 0)
          = e') as ->
    by (unfold fexp, emin, prec, emax, e'; lia).
  assert (binary_digits p - 53 - (binary_digits t - 53) - e' = 53) as ->
    by (unfold e'; lia).
  set (s := 0 - 0 - e').
  assert (0 < s) as Hs by (unfold s, e'; lia).
  set (c := 2 ^ (53 - binary_digits t)).
  assert (0 < c) as Hc by (apply Z.pow_pos_nonneg; lia).
  assert (match s with
          | 0 => Zpos p
          | Zpos _ => Z.shiftl (Zpos p) s
          | Zneg _ => 0
          end = Zpos p * 2 ^ s) as ->.
  { destruct s; try lia. apply Z.shiftl_mul_pow2. lia. }
  cbv iota.
  assert (Z.shiftl (Zpos (normal_mantissa p)) 53 = Zpos p * 2 ^ s * c) as ->.
  { rewrite Z.shiftl_mul_pow2, integer_mantissa by (assumption || lia).
    unfold c. rewrite <- !Z.mul_assoc, <- !Z.pow_add_r by (unfold s, e'; lia).
    f_equal. f_equal. unfold s, e'. lia. }
  rewrite (integer_mantissa t Ht). fold c.
  pose proof (Z.div_mul_cancel_r (Zpos p * 2 ^ s) (Zpos t) c ltac:(lia) ltac:(lia)) as Hq.
  pose proof (Z.mul_mod_distr_r (Zpos p * 2 ^ s) (Zpos t) c ltac:(lia) ltac:(lia)) as Hr.
  pose proof (Z.mod_pos_bound (Zpos p * 2 ^ s) (Zpos t) ltac:(lia)) as Hb.
  unfold Z.div, Z.modulo in Hq, Hr, Hb.
  destruct (Z.div_eucl (Zpos p * 2 ^ s * c) (Zpos t * c)) as [q' r'].
  destruct (Z.div_eucl (Zpos p * 2 ^ s) (Zpos t)) as [q r].
  subst q' r'. f_equal. unfold c. apply new_location_scaled; lia.
Qed.

Lemma SFopp_binary_round_aux (m e : Z) (l : location) :
  SFopp (binary_round_aux prec emax false m e l) = binary_round_aux prec emax true m e l.
Proof.
  unfold binary_round_aux.
  destruct (shr_fexp prec emax m e l) as [mrs' e'].
  destruct (shr_fexp prec emax _ e' loc_Exact) as [mrs'' e''].
  destruct (shr_m mrs''); [reflexivity | | reflexivity].
  destruct (e'' <=? emax - prec); reflexivity.
Qed.

Lemma Prim2SF_quotient (p t : positive) :
  Zpos p < 2 ^ 53 -> Zpos t < 2 ^ 53 ->
  Prim2SF (integer_Number (Zpos p) / integer_Number (Zpos t))
  = SFdiv prec emax (S754_finite false p 0) (S754_finite false t 0).
Proof.
  intros Hp Ht. rewrite div_spec, !integer_Number_exact by assumption.
  unfold SF64div, SFdiv. rewrite SFdiv_core_normalized by assumption. reflexivity.
Qed.

Lemma power_of_ten_small (k : nat) : (k <= 15)%nat -> 0 < 10 ^ Z.of_nat k < 2 ^ 53.
Proof.
  intros Hk. split; [apply Z.pow_pos_nonneg; lia|].
  apply Z.le_lt_trans with (10 ^ 15); [apply Z.pow_le_mono_r; lia | reflexivity].
Qed.

(** Digits that denote an integer below 2^53, with up to fifteen of them
    after the point, are read as the hardware's quotient. *)
Lemma float_of_decimal_quotient (negative : bool) (m : Z) (k : nat) :
  0 <= m < 2 ^ 53 -> (k <= 15)%nat ->
  float_of_decimal negative m (- Z.of_nat k) = decimal_quotient negative m k.
Proof.
  intros [Hlo Hhi] Hk. pose proof (power_of_ten_small k Hk) as [Ht0 Ht].
  unfold decimal_quotient.
  destruct (10 ^ Z.of_nat k) as [|t|t] eqn:T; try lia.
  destruct m as [|p|p]; [| | lia].
  - unfold float_of_decimal. cbn [Z.eqb].
    assert (integer_Number 0 / integer_Number (Zpos t) = zero)%float as ->.
    { rewrite <- (SF2Prim_Prim2SF (_ / _)), div_spec, integer_Number_exact by exact Ht.
      reflexivity. }
    destruct negative; reflexivity.
  - assert (float_of_decimal negative (Zpos p) (- Z.of_nat k)
            = SF2Prim (SFdiv prec emax (S754_finite negative p 0) (S754_finite false t 0)))
      as ->.
    { unfold float_of_decimal. cbn [Z.eqb].
      destruct k as [|k].
      - simpl in T. injection T as <-.
        change (- Z.of_nat 0) with 0. change (10 ^ 0) with 1.
        rewrite Z.mul_1_r. reflexivity.
      - replace (0 <=? - Z.of_nat (S k)) with false by (symmetry; apply Z.leb_gt; lia).
        rewrite Z.opp_involutive, T. reflexivity. }
    destruct negative.
    + rewrite <- (SF2Prim_Prim2SF (- _)), opp_spec, Prim2SF_quotient by assumption.
      unfold SFdiv. destruct (SFdiv_core_binary _ _ _ _ _ _) as [[mz ez] lz].
      rewrite SFopp_binary_round_aux. reflexivity.
    + rewrite <- (SF2Prim_Prim2SF (_ / _)), Prim2SF_quotient by assumption.
      reflexivity.
Qed.

(** With a non-negative exponent of ten, digits that denote an integer below
    2^53 are read as that integer. *)
Lemma float_of_decimal_scaled (negative : bool) (m e : Z) :
  0 <= m -> 0 <= e -> m * 10 ^ e < 2 ^ 53 ->
  float_of_decimal negative m e = decimal_quotient negative (m * 10 ^ e) 0.
Proof.
  intros Hm He Hb.
  assert (0 < 10 ^ e) as Hpow by (apply Z.pow_pos_nonneg; lia).
  rewrite <- (float_of_decimal_quotient negative (m * 10 ^ e) 0)
    by first [lia | split; [nia | lia]].
  change (- Z.of_nat 0) with 0. unfold float_of_decimal.
  destruct (Z.eqb_spec m 0) as [-> | Hne]; [reflexivity|].
  replace (m * 10 ^ e =? 0) with false by (symmetry; apply Z.eqb_neq; nia).
  replace (0 <=? e) with true by (symmetry; apply Z.leb_le; lia).
  change (0 <=? 0) with true. change (10 ^ 0) with 1. rewrite Z.mul_1_r. reflexivity.
Qed.



(** The examples of C9, evaluated. *)
Example parseFloat_12abc :
  parseFloat (VString "12abc") = 12%float
  /\ formatoNumero (VString "12abc") None = Normal "12"%string
  /\ formatoNumero (VNumber 0) None = Normal "0"%string.
Proof. repeat split; vm_compute; reflexivity. Qed.

Example parseFloat_3_5_kg :
  parseFloat (VString "3.5 kg") = 3.5%float
  /\ text (prefix_chars (mkPrefix [] None (chars "3") (Some (chars "5")) None)) +:+ " kg"
     = "3.5 kg"%string
  /\ formatoNumero (VString "3.5 kg") (Some 1) = Normal "3,5"%string
  /\ formatoPorcentaje (VString "3.5 kg") None = Normal "3,5%"%string
  /\ formatoCompacto (VString "3.5 kg") = Normal "3.5"%string
  /\ decimal_quotient false 35 1 = 3.5%float
  /\ decimal_quotient false 12 0 = 12%float.
Proof. repeat split; vm_compute; reflexivity. Qed.

(** ** The declarative pass on nested elements *)

Lemma Node_forest_ind (P : Node -> Prop) :
  (forall data, P (TextNode data)) ->
  (forall id attrs children, Forall P children -> P (ElementNode id attrs children)) ->
  forall n, P n.
Proof.
  intros Ht He. fix IH 1. intros [data | id attrs children].
  - apply Ht.
  - apply He. induction children as [|c cs IHcs]; constructor; [apply IH | exact IHcs].
Qed.

(** The callback raises nothing. *)
Lemma asignacion_asignado (attrs : gmap string string) (texto : string) :
  asignacion attrs texto = Normal (asignado attrs texto).
Proof.
  unfold asignado.
  assert (exists r, asignacion attrs texto = Normal r) as [r ->]; [|reflexivity].
  unfold asignacion.
  set (valor := VNumber _). set (decimales := Some _).
  repeat case_match; simpl; eauto.
  - destruct (formatoNumero_total valor decimales) as [s ->]. simpl. eauto.
  - destruct (formatoMoneda_total valor
                (Some (or_dollar (attrs !! "data-simbolo"%string))) decimales)
      as [s ->]. simpl. eauto.
  - destruct (formatoPorcentaje_total valor decimales) as [s ->]. simpl. eauto.
  - destruct (formatoCompacto_total valor) as [s ->]. simpl. eauto.
Qed.

Lemma asignado_unrecognized (attrs : gmap string string) (texto : string) :
  recognized (default ""%string (attrs !! "data-format"%string)) = false ->
  asignado attrs texto = None.
Proof.
  unfold recognized, asignado, asignacion. intros H.
  apply orb_false_iff in H as [H H4].
  apply orb_false_iff in H as [H H3].
  apply orb_false_iff in H as [H1 H2].
  rewrite H1, H2, H3, H4. reflexivity.
Qed.

Lemma asignado_recognized (attrs : gmap string string) (texto : string) :
  recognized (default ""%string (attrs !! "data-format"%string)) = true ->
  exists s, asignado attrs texto = Some s.
Proof.
  unfold recognized, asignado, asignacion. intros H.
  set (valor := VNumber _). set (decimales := Some _).
  destruct (_ =? "numero")%string.
  { destruct (formatoNumero_total valor decimales) as [s ->]. simpl. eauto. }
  destruct (_ =? "moneda")%string.
  { destruct (formatoMoneda_total valor
                (Some (or_dollar (attrs !! "data-simbolo"%string))) decimales)
      as [s ->]. simpl. eauto. }
  destruct (_ =? "porcentaje")%string.
  { destruct (formatoPorcentaje_total valor decimales) as [s ->]. simpl. eauto. }
  destruct (_ =? "compacto")%string.
  { destruct (formatoCompacto_total valor) as [s ->]. simpl. eauto. }
  discriminate H.
Qed.

(** The callback on the tree is the callback on an element that owns its
    text. *)
Lemma formateado_asignado (elemento : Element) :
  formateado elemento
  = match asignado (attributes elemento) (textContent elemento) with
    | Some s => set_textContent elemento s
    | None => elemento
    end.
Proof.
  unfold formateado, formatearElemento, asignado, asignacion, getAttribute.
  set (valor := VNumber _). set (decimales := Some _).
  destruct (_ =? "numero")%string.
  { destruct (formatoNumero_total valor decimales) as [s ->]. reflexivity. }
  destruct (_ =? "moneda")%string.
  { destruct (formatoMoneda_total valor
                (Some (or_dollar (attributes elemento !! "data-simbolo"%string))) decimales)
      as [s ->]. reflexivity. }
  destruct (_ =? "porcentaje")%string.
  { destruct (formatoPorcentaje_total valor decimales) as [s ->]. reflexivity. }
  destruct (_ =? "compacto")%string.
  { destruct (formatoCompacto_total valor) as [s ->]. reflexivity. }
  reflexivity.
Qed.

(** *** Elements that are not in a subtree *)

Lemma text_children_ids (s : string) : flat_map element_ids (text_children s) = [].
Proof. unfold text_children. destruct (s =? "")%string; reflexivity. Qed.

Lemma text_children_textContent (id : nat) (attrs : gmap string string) (s : string) :
  node_textContent (ElementNode id attrs (text_children s)) = s.
Proof.
  unfold text_children. destruct (s =? "")%string eqn:E; simpl.
  - apply String.eqb_eq in E. congruence.
  - apply append_empty.
Qed.

Lemma find_element_None (i : nat) (n : Node) :
  find_element i n = None <-> i ∉ element_ids n.
Proof.
  induction n as [data | id attrs children IH] using Node_forest_ind; simpl.
  - split; [intros _; apply not_elem_of_nil | reflexivity].
  - destruct (id =? i)%nat eqn:E.
    + apply Nat.eqb_eq in E as ->. split; [discriminate|].
      intros H. exfalso. apply H, list_elem_of_here.
    + apply Nat.eqb_neq in E. rewrite not_elem_of_cons.
      assert (first_some (map (find_element i) children) = None
              <-> i ∉ flat_map element_ids children) as ->.
      2: { split; [intros H; split; [congruence | exact H] | intros [_ H]; exact H]. }
      induction IH as [|c cs Hc _ IHcs]; simpl.
      * split; [intros _; apply not_elem_of_nil | reflexivity].
      * rewrite not_elem_of_app, <- Hc, <- IHcs.
        destruct (find_element i c).
        -- split; [discriminate | intros [? _]; discriminate].
        -- split; [intros H; split; [reflexivity | exact H] | intros [_ H]; exact H].
Qed.

Lemma set_textContent_tree_absent (i : nat) (s : string) (n : Node) :
  i ∉ element_ids n -> set_textContent_tree i s n = n.
Proof.
  induction n as [data | id attrs children IH] using Node_forest_ind; simpl;
    [reflexivity|].
  rewrite not_elem_of_cons. intros [Hne Hout].
  destruct (id =? i)%nat eqn:E; [apply Nat.eqb_eq in E; congruence|]. f_equal.
  induction IH as [|c cs Hc _ IHcs]; simpl in *; [reflexivity|].
  apply not_elem_of_app in Hout as [H1 H2]. f_equal; auto.
Qed.

Lemma visited_tree_absent (i : nat) (n : Node) :
  i ∉ element_ids n -> visited_tree i n = n.
Proof.
  induction n as [data | id attrs children IH] using Node_forest_ind; simpl;
    [reflexivity|].
  rewrite not_elem_of_cons. intros [Hne Hout].
  destruct (id =? i)%nat eqn:E; [apply Nat.eqb_eq in E; congruence|]. f_equal.
  induction IH as [|c cs Hc _ IHcs]; simpl in *; [reflexivity|].
  apply not_elem_of_app in Hout as [H1 H2]. f_equal; auto.
Qed.

Lemma set_textContent_forest_absent (i : nat) (s : string) (forest : list Node) :
  i ∉ flat_map element_ids forest -> map (set_textContent_tree i s) forest = forest.
Proof.
  induction forest as [|c cs IH]; simpl; [reflexivity|].
  intros [H1 H2]%not_elem_of_app. f_equal; [apply set_textContent_tree_absent, H1 | auto].
Qed.

Lemma visited_forest_absent (i : nat) (forest : list Node) :
  i ∉ flat_map element_ids forest -> map (visited_tree i) forest = forest.
Proof.
  induction forest as [|c cs IH]; simpl; [reflexivity|].
  intros [H1 H2]%not_elem_of_app. f_equal; [apply visited_tree_absent, H1 | auto].
Qed.

(** *** One step of forEach *)

Lemma visited_tree_ids (i : nat) (n : Node) :
  element_ids (visited_tree i n) `sublist_of` element_ids n.
Proof.
  induction n as [data | id attrs children IH] using Node_forest_ind; simpl;
    [constructor|].
  destruct (id =? i)%nat.
  - destruct (asignado _ _); [|reflexivity]. simpl.
    rewrite text_children_ids. apply sublist_skip, sublist_nil_l.
  - simpl. apply sublist_skip.
    induction IH as [|c cs Hc _ IHcs]; simpl; [constructor|].
    apply sublist_app; assumption.
Qed.

Lemma visited_tree_NoDup (i : nat) (n : Node) :
  NoDup (element_ids n) -> NoDup (element_ids (visited_tree i n)).
Proof. intros H. eapply sublist_NoDup; [exact H | apply visited_tree_ids]. Qed.

Lemma visit_tree_visited (page : Node) (i : nat) :
  NoDup (element_ids page) -> visit_tree page i = Normal (visited_tree i page).
Proof.
  intros Hnd. unfold visit_tree.
  assert (match find_element i page with
          | Some (attrs, texto) =>
              match asignado attrs texto with
              | Some s => set_textContent_tree i s page
              | None => page
              end
          | None => page
          end = visited_tree i page) as <-.
  2: { destruct (find_element i page) as [[attrs texto]|]; [|reflexivity].
       rewrite asignacion_asignado. simpl. destruct (asignado attrs texto); reflexivity. }
  induction page as [data | id attrs children IH] using Node_forest_ind; [reflexivity|].
  cbn [find_element set_textContent_tree visited_tree].
  destruct (id =? i)%nat eqn:E; [reflexivity|].
  cbn [element_ids] in Hnd. apply NoDup_cons in Hnd as [_ Hnd].
  assert (match first_some (map (find_element i) children) with
          | Some (attrs', texto) =>
              match asignado attrs' texto with
              | Some s => map (set_textContent_tree i s) children
              | None => children
              end
          | None => children
          end = map (visited_tree i) children) as <-.
  2: { destruct (first_some _) as [[attrs' texto]|]; [|reflexivity].
       destruct (asignado attrs' texto); reflexivity. }
  induction IH as [|c cs Hc _ IHcs]; [reflexivity|].
  cbn [flat_map] in Hnd. apply NoDup_app in Hnd as (Hc' & Hdisj & Hcs).
  cbn [map first_some]. rewrite <- Hc by exact Hc'.
  destruct (find_element i c) as [[attrs' texto]|] eqn:F.
  - assert (i ∉ flat_map element_ids cs) as Hout.
    { apply Hdisj. destruct (decide (i ∈ element_ids c)) as [|Habs]; [assumption|].
      apply find_element_None in Habs. congruence. }
    rewrite visited_forest_absent by exact Hout.
    destruct (asignado attrs' texto); [|reflexivity].
    cbn [map]. rewrite set_textContent_forest_absent by exact Hout. reflexivity.
  - rewrite <- IHcs by exact Hcs.
    assert (i ∉ element_ids c) as Hout by (apply find_element_None, F).
    destruct (first_some _) as [[attrs' texto]|]; [|reflexivity].
    destruct (asignado attrs' texto); [|reflexivity].
    cbn [map]. rewrite set_textContent_tree_absent by exact Hout. reflexivity.
Qed.

Lemma forEach_tree_foldl (selected : list nat) : forall page : Node,
  NoDup (element_ids page) ->
  forEach_tree selected page = Normal (foldl (fun p i => visited_tree i p) page selected).
Proof.
  induction selected as [|i rest IH]; intros page Hnd; simpl; [reflexivity|].
  rewrite visit_tree_visited by exact Hnd. simpl.
  apply IH, visited_tree_NoDup, Hnd.
Qed.

(** *** The whole pass *)

Lemma querySelectorAll_tree_ids (n : Node) (i : nat) :
  i ∈ querySelectorAll_tree n -> i ∈ element_ids n.
Proof.
  induction n as [data | id attrs children IH] using Node_forest_ind; simpl;
    [trivial|].
  rewrite elem_of_app, elem_of_cons. intros [H | H].
  - left. destruct (attrs !! "data-format"%string); [|inversion H].
    apply list_elem_of_singleton in H. exact H.
  - right. induction IH as [|c cs Hc _ IHcs]; simpl in *; [exact H|].
    apply elem_of_app in H as [H | H]; apply elem_of_app; auto.
Qed.

Lemma querySelectorAll_forest_ids (forest : list Node) (i : nat) :
  i ∈ flat_map querySelectorAll_tree forest -> i ∈ flat_map element_ids forest.
Proof.
  induction forest as [|c cs IH]; simpl; [trivial|].
  rewrite !elem_of_app. intros [H | H]; [left; apply querySelectorAll_tree_ids, H | auto].
Qed.

Lemma formateado_tree_ids (n : Node) (i : nat) :
  i ∈ element_ids (formateado_tree n) -> i ∈ element_ids n.
Proof.
  induction n as [data | id attrs children IH] using Node_forest_ind;
    cbn [formateado_tree]; [trivial|].
  destruct (asignado _ _); cbn [element_ids]; rewrite !elem_of_cons.
  - rewrite text_children_ids. intros [H | H]; [auto | inversion H].
  - intros [H | H]; [auto | right].
    induction IH as [|c cs Hc _ IHcs]; simpl in *; [exact H|].
    apply elem_of_app in H as [H | H]; apply elem_of_app; auto.
Qed.

Lemma foldl_visited_head (selected : list nat) (rest : list Node) :
  forall n : Node,
    (forall i, i ∈ selected -> i ∉ flat_map element_ids rest) ->
    foldl (fun forest i => map (visited_tree i) forest) (n :: rest) selected
    = foldl (fun p i => visited_tree i p) n selected :: rest.
Proof.
  induction selected as [|i selected IH]; intros n H; simpl; [reflexivity|].
  rewrite visited_forest_absent by (apply H, list_elem_of_here).
  apply IH. intros j Hj. apply H, list_elem_of_further, Hj.
Qed.

Lemma foldl_visited_tail (selected : list nat) (n : Node) :
  forall rest : list Node,
    (forall i, i ∈ selected -> i ∉ element_ids n) ->
    foldl (fun forest i => map (visited_tree i) forest) (n :: rest) selected
    = n :: foldl (fun forest i => map (visited_tree i) forest) rest selected.
Proof.
  induction selected as [|i selected IH]; intros rest H; simpl; [reflexivity|].
  rewrite visited_tree_absent by (apply H, list_elem_of_here).
  apply IH. intros j Hj. apply H, list_elem_of_further, Hj.
Qed.

Lemma foldl_visited_children (selected : list nat) (id : nat)
    (attrs : gmap string string) :
  forall children : list Node,
    id ∉ selected ->
    foldl (fun p i => visited_tree i p) (ElementNode id attrs children) selected
    = ElementNode id attrs
        (foldl (fun forest i => map (visited_tree i) forest) children selected).
Proof.
  induction selected as [|i selected IH]; intros children H; simpl; [reflexivity|].
  apply not_elem_of_cons in H as [Hne H].
  destruct (id =? i)%nat eqn:E; [apply Nat.eqb_eq in E; congruence|].
  apply IH, H.
Qed.

Lemma foldl_visited_forest (forest : list Node) :
  Forall (fun n => NoDup (element_ids n) ->
                   foldl (fun p i => visited_tree i p) n (querySelectorAll_tree n)
                   = formateado_tree n) forest ->
  NoDup (flat_map element_ids forest) ->
  foldl (fun forest i => map (visited_tree i) forest) forest
        (flat_map querySelectorAll_tree forest)
  = map formateado_tree forest.
Proof.
  induction 1 as [|n rest Hn _ IH]; intros Hnd; simpl; [reflexivity|].
  simpl in Hnd. apply NoDup_app in Hnd as (Hn' & Hdisj & Hrest).
  rewrite foldl_app, foldl_visited_head, Hn by
    (first [exact Hn' | intros i Hi; apply Hdisj, querySelectorAll_tree_ids, Hi]).
  rewrite foldl_visited_tail, IH; [reflexivity | exact Hrest |].
  intros i Hi Habs. apply formateado_tree_ids in Habs.
  apply (Hdisj i Habs), querySelectorAll_forest_ids, Hi.
Qed.

(** With distinct elements, the pass visits every selected element once, in
    tree order, and leaves the page as [formateado_tree] describes. *)
Lemma foldl_visited_tree (n : Node) :
  NoDup (element_ids n) ->
  foldl (fun p i => visited_tree i p) n (querySelectorAll_tree n) = formateado_tree n.
Proof.
  induction n as [data | id attrs children IH] using Node_forest_ind;
    [reflexivity|].
  intros Hnd. pose proof Hnd as Hnd'.
  cbn [element_ids] in Hnd'. apply NoDup_cons in Hnd' as [Hid Hch].
  assert (id ∉ flat_map querySelectorAll_tree children) as Hsel
    by (intros H; apply Hid, querySelectorAll_forest_ids, H).
  assert (foldl (fun p i => visited_tree i p) (ElementNode id attrs children)
                (flat_map querySelectorAll_tree children)
          = ElementNode id attrs (map formateado_tree children)) as Hbelow.
  { rewrite foldl_visited_children by exact Hsel.
    rewrite foldl_visited_forest by assumption. reflexivity. }
  cbn [querySelectorAll_tree formateado_tree].
  destruct (attrs !! "data-format"%string) as [f|] eqn:F.
  - cbn [app foldl visited_tree]. rewrite Nat.eqb_refl.
    destruct (asignado attrs _) as [s|] eqn:A.
    + rewrite foldl_visited_children by exact Hsel. f_equal.
      generalize (flat_map querySelectorAll_tree children).
      intros l. induction l as [|i l IHl]; simpl; [reflexivity|].
      rewrite <- IHl at 2. f_equal.
      unfold text_children. destruct (s =? "")%string; reflexivity.
    + exact Hbelow.
  - rewrite asignado_unrecognized by (rewrite F; reflexivity).
    exact Hbelow.
Qed.

(** The pass raises nothing and leaves the page as [formateado_tree]
    describes. *)
Lemma formatearElementos_tree_formateado (page : Node) :
  NoDup (element_ids page) ->
  formatearElementos_tree page = Normal (formateado_tree page).
Proof.
  intros Hnd. unfold formatearElementos_tree.
  rewrite forEach_tree_foldl by exact Hnd.
  rewrite foldl_visited_tree by exact Hnd. reflexivity.
Qed.

Lemma formateado_tree_quiet (n : Node) :
  has_recognized n = false -> formateado_tree n = n.
Proof.
  induction n as [data | id attrs children IH] using Node_forest_ind;
    [reflexivity|].
  cbn [has_recognized formateado_tree]. intros [Hr Hc]%orb_false_iff.
  rewrite asignado_unrecognized by exact Hr. f_equal.
  induction IH as [|c cs Hc' _ IHcs]; [reflexivity|].
  cbn [existsb] in Hc. apply orb_false_iff in Hc as [H1 H2].
  cbn [map]. f_equal; auto.
Qed.

Lemma formateado_forest_quiet (forest : list Node) :
  existsb has_recognized forest = false -> map formateado_tree forest = forest.
Proof.
  induction forest as [|c cs IH]; [reflexivity|].
  cbn [existsb map]. intros [H1 H2]%orb_false_iff.
  f_equal; [apply formateado_tree_quiet, H1 | auto].
Qed.

Lemma formateado_tree_outside (u page : Node) :
  outside_recognized u page ->
  outside_recognized (formateado_tree u) (formateado_tree page).
Proof.
  induction 1 as [|id attrs children c Hr Hc _ IH]; [constructor|].
  cbn [formateado_tree]. rewrite asignado_unrecognized by exact Hr.
  apply (outside_child _ _ _ _ (formateado_tree c)); [exact Hr | | exact IH].
  apply list_elem_of_fmap. exists c. split; [reflexivity | exact Hc].
Qed.

Lemma formateado_forest_ids (forest : list Node) (i : nat) :
  i ∈ flat_map element_ids (map formateado_tree forest) ->
  i ∈ flat_map element_ids forest.
Proof.
  induction forest as [|c cs IH]; simpl; [trivial|].
  rewrite !elem_of_app. intros [H | H]; [left; apply formateado_tree_ids, H | auto].
Qed.

Lemma outside_recognized_ids (u page : Node) (i : nat) :
  outside_recognized u page -> i ∈ element_ids u -> i ∈ element_ids page.
Proof.
  induction 1 as [|id attrs children c _ Hc _ IH]; [trivial|].
  intros Hi. cbn [element_ids]. apply list_elem_of_further.
  apply list_elem_of_split in Hc as (l1 & l2 & ->).
  rewrite flat_map_app. cbn [flat_map]. rewrite !elem_of_app. auto.
Qed.

(** The elements that a recognized element held are not in the page after
    the pass. *)
Lemma formateado_tree_removed (u page : Node) :
  outside_recognized u page ->
  NoDup (element_ids page) ->
  forall (id : nat) (attrs : gmap string string) (children : list Node) (s : string),
    u = ElementNode id attrs children ->
    asignado attrs (node_textContent u) = Some s ->
    forall i, i ∈ flat_map element_ids children ->
              i ∉ element_ids (formateado_tree page).
Proof.
  induction 1 as [|id0 attrs0 children0 c Hr Hc Hout IH];
    intros Hnd id attrs children s -> Hs i Hi.
  - cbn [formateado_tree]. rewrite Hs. cbn [element_ids].
    rewrite text_children_ids. cbn [element_ids] in Hnd.
    apply NoDup_cons in Hnd as [Hid _].
    intros ->%list_elem_of_singleton. contradiction.
  - assert (i ∈ element_ids c) as Hic.
    { apply (outside_recognized_ids _ _ _ Hout). cbn [element_ids].
      apply list_elem_of_further, Hi. }
    cbn [formateado_tree]. rewrite asignado_unrecognized by exact Hr.
    cbn [element_ids] in *. apply NoDup_cons in Hnd as [Hid Hnd].
    apply list_elem_of_split in Hc as (l1 & l2 & ->).
    rewrite flat_map_app in Hid, Hnd. cbn [flat_map] in Hid, Hnd.
    apply NoDup_app in Hnd as (_ & H1 & Hnd).
    apply NoDup_app in Hnd as (Hc & H2 & _).
    rewrite map_app, flat_map_app. cbn [map flat_map].
    rewrite elem_of_cons, !elem_of_app. intros [-> | [H | [H | H]]].
    + apply Hid. rewrite !elem_of_app. auto.
    + apply formateado_forest_ids in H. apply (H1 i H). rewrite elem_of_app. auto.
    + exact (IH Hc id attrs children s eq_refl Hs i Hi H).
    + apply formateado_forest_ids in H. exact (H2 i Hic H).
Qed.

(** C8: on a page of distinct elements the pass raises nothing and never
    writes to an element whose data-format value is none of "numero",
    "moneda", "porcentaje", "compacto".  Such an element, when it lies inside
    no recognized element, is still in the page with its attributes and with
    as many child nodes as before, each child being what the pass makes of
    it; when no element below it has a recognized mode, the element is
    exactly as it was, text content included. *)
Theorem unrecognized_never_written (page : Node) (id : nat)
    (attrs : gmap string string) (children : list Node) :
  NoDup (element_ids page) ->
  outside_recognized (ElementNode id attrs children) page ->
  recognized (default ""%string (attrs !! "data-format"%string)) = false ->
  exists (page' : Node) (children' : list Node),
    formatearElementos_tree page = Normal page'
    /\ outside_recognized (ElementNode id attrs children') page'
    /\ children' = map formateado_tree children
    /\ length children' = length children
    /\ (existsb has_recognized children = false ->
        children' = children
        /\ node_textContent (ElementNode id attrs children')
           = node_textContent (ElementNode id attrs children)).
Proof.
  intros Hnd Hin Hr.
  exists (formateado_tree page), (map formateado_tree children).
  split; [apply formatearElementos_tree_formateado, Hnd|].
  split.
  - apply formateado_tree_outside in Hin. cbn [formateado_tree] in Hin.
    rewrite asignado_unrecognized in Hin by exact Hr. exact Hin.
  - split; [reflexivity|]. split; [apply length_map|].
    intros Hq. rewrite formateado_forest_quiet by exact Hq. split; reflexivity.
Qed.

Lemma unrecognized_never_written_witness :
  let tabla := ElementNode 1 {[ "data-format"%string := "tabla"%string ]}
                 [TextNode "1234"] in
  let total := ElementNode 2 {[ "data-format"%string := "numero"%string ]}
                 [TextNode "1234"] in
  exists (page' : Node) (children' : list Node),
    formatearElementos_tree (ElementNode 0 ∅ [total; tabla]) = Normal page'
    /\ outside_recognized (ElementNode 1 {[ "data-format"%string := "tabla"%string ]}
                             children') page'
    /\ children' = map formateado_tree [TextNode "1234"]
    /\ length children' = length [TextNode "1234"]
    /\ (existsb has_recognized [TextNode "1234"] = false ->
        children' = [TextNode "1234"]
        /\ node_textContent (ElementNode 1 {[ "data-format"%string := "tabla"%string ]}
                               children')
           = node_textContent (ElementNode 1 {[ "data-format"%string := "tabla"%string ]}
                                 [TextNode "1234"])).
Proof.
  intros tabla total.
  apply (unrecognized_never_written (ElementNode 0 ∅ [total; tabla]) 1).
  - apply (bool_decide_unpack _). vm_compute. reflexivity.
  - apply (outside_child _ _ _ _ tabla); [reflexivity | | constructor].
    apply list_elem_of_further, list_elem_of_here.
  - reflexivity.
Defined.

(** C8 as stated fails for an element that holds a recognized one: in
    [<div data-format="tabla"><span data-format="numero">1234</span></div>]
    the pass writes to the span only, and the text content of the div, whose
    mode is not recognized, goes from "1234" to "1.234". *)
Lemma unrecognized_text_changes :
  let span' := ElementNode 1 {[ "data-format"%string := "numero"%string ]}
                 [TextNode "1.234"] in
  let div' := ElementNode 0 {[ "data-format"%string := "tabla"%string ]} [span'] in
  recognized "tabla" = false
  /\ node_textContent tabla_con_total = "1234"%string
  /\ formatearElementos_tree tabla_con_total = Normal div'
  /\ node_textContent div' = "1.234"%string
  /\ node_textContent div' <> node_textContent tabla_con_total.
Proof.
  repeat split; try reflexivity.
  intros H. vm_compute in H. discriminate H.
Qed.

(** *** What the pass does to a recognized element *)

(** X5: on a page of distinct elements the pass raises nothing, and an
    element with a recognized mode that lies inside no other recognized
    element ends up holding the text that the callback computes from its text
    content before the pass, and nothing else: it keeps its attributes, its
    text content is that text, and the elements it held are not in the page
    any more. *)
Theorem pass_replaces_children (page : Node) (id : nat)
    (attrs : gmap string string) (children : list Node) :
  NoDup (element_ids page) ->
  outside_recognized (ElementNode id attrs children) page ->
  recognized (default ""%string (attrs !! "data-format"%string)) = true ->
  exists (page' : Node) (s : string),
    formatearElementos_tree page = Normal page'
    /\ asignacion attrs (node_textContent (ElementNode id attrs children))
       = Normal (Some s)
    /\ outside_recognized (ElementNode id attrs (text_children s)) page'
    /\ node_textContent (ElementNode id attrs (text_children s)) = s
    /\ element_ids (ElementNode id attrs (text_children s)) = [id]
    /\ forall i, i ∈ flat_map element_ids children -> i ∉ element_ids page'.
Proof.
  intros Hnd Hin Hr.
  destruct (asignado_recognized attrs
              (node_textContent (ElementNode id attrs children)) Hr) as [s Hs].
  exists (formateado_tree page), s.
  split; [apply formatearElementos_tree_formateado, Hnd|].
  split; [rewrite asignacion_asignado, Hs; reflexivity|].
  split.
  { apply formateado_tree_outside in Hin. cbn [formateado_tree] in Hin.
    rewrite Hs in Hin. exact Hin. }
  split; [apply text_children_textContent|].
  split; [cbn [element_ids]; rewrite text_children_ids; reflexivity|].
  intros i Hi. exact (formateado_tree_removed _ _ Hin Hnd id attrs children s eq_refl Hs i Hi).
Qed.

Lemma pass_replaces_children_witness :
  exists (page' : Node) (s : string),
    formatearElementos_tree celda_con_negrita = Normal page'
    /\ asignacion {[ "data-format"%string := "moneda"%string ]}
         (node_textContent celda_con_negrita) = Normal (Some s)
    /\ outside_recognized
         (ElementNode 0 {[ "data-format"%string := "moneda"%string ]} (text_children s))
         page'
    /\ node_textContent
         (ElementNode 0 {[ "data-format"%string := "moneda"%string ]} (text_children s))
       = s
    /\ element_ids
         (ElementNode 0 {[ "data-format"%string := "moneda"%string ]} (text_children s))
       = [0%nat]
    /\ forall i, i ∈ flat_map element_ids [ElementNode 1 ∅ [TextNode "1500000"]] ->
                 i ∉ element_ids page'.
Proof.
  apply (pass_replaces_children celda_con_negrita 0).
  - apply (bool_decide_unpack _). vm_compute. reflexivity.
  - constructor.
  - reflexivity.
Defined.

(** [<td data-format="moneda"><strong>1500000</strong></td>] is left as
    [<td data-format="moneda">$1.500.000</td>]. *)
Example celda_con_negrita_formatted :
  formatearElementos_tree celda_con_negrita
  = Normal (ElementNode 0 {[ "data-format"%string := "moneda"%string ]}
              [TextNode "$1.500.000"]).
Proof. reflexivity. Qed.

(** *** A page of leaf elements *)

Lemma leaf_nodes_ids (document : list Element) : forall k : nat,
  flat_map element_ids (imap (fun i elemento => leaf_node (k + i) elemento) document)
  = seq k (length document).
Proof.
  induction document as [|e document IH]; intros k; [reflexivity|].
  cbn [imap flat_map element_ids leaf_node length seq].
  rewrite text_children_ids, Nat.add_0_r. cbn [app]. f_equal.
  rewrite <- (IH (S k)). f_equal. apply imap_ext. intros i x _. simpl.
  f_equal. lia.
Qed.

Lemma formateado_tree_leaf (i : nat) (elemento : Element) :
  formateado_tree (leaf_node i elemento) = leaf_node i (formateado elemento).
Proof.
  unfold leaf_node. cbn [formateado_tree].
  rewrite text_children_textContent, formateado_asignado.
  destruct (asignado _ _); [reflexivity|]. f_equal.
  unfold text_children. destruct (_ =? _)%string; reflexivity.
Qed.

Lemma formateado_tree_leaves (document : list Element) : forall k : nat,
  map formateado_tree (imap (fun i elemento => leaf_node (k + i) elemento) document)
  = imap (fun i elemento => leaf_node (k + i) elemento) (formateado <$> document).
Proof.
  induction document as [|e document IH]; intros k; [reflexivity|].
  cbn [imap map fmap list_fmap]. rewrite formateado_tree_leaf. f_equal.
  rewrite (imap_ext _ (fun i elemento => leaf_node (S k + i) elemento) document)
    by (intros i x _; simpl; f_equal; lia).
  rewrite IH. apply imap_ext. intros i x _. simpl. f_equal. lia.
Qed.

(** On a page of leaf elements the pass on the tree is the pass on the list
    of the elements. *)
Lemma formatearElementos_tree_leaves (document : list Element) :
  formatearElementos_tree (page_of_leaves document)
  = (document' ← formatearElementos document; mret (page_of_leaves document')).
Proof.
  rewrite formatearElementos_fmap. simpl.
  rewrite formatearElementos_tree_formateado.
  - f_equal. unfold page_of_leaves. cbn [formateado_tree].
    rewrite asignado_unrecognized by reflexivity. f_equal.
    apply (formateado_tree_leaves document 1).
  - unfold page_of_leaves. cbn [element_ids].
    rewrite (leaf_nodes_ids document 1
             : flat_map element_ids
                 (imap (fun i elemento => leaf_node (S i) elemento) document) = _).
    apply NoDup_cons. split.
    + rewrite elem_of_seq. lia.
    + apply NoDup_seq.
Qed.

(** ** The value of printed digits *)

Lemma digit_value_digit_char (n : Z) : digit_value (digit_char (n mod 10)) = n mod 10.
Proof.
  pose proof (Z.mod_pos_bound n 10 ltac:(lia)) as H.
  assert (n mod 10 = 0 \/ n mod 10 = 1 \/ n mod 10 = 2 \/ n mod 10 = 3
          \/ n mod 10 = 4 \/ n mod 10 = 5 \/ n mod 10 = 6 \/ n mod 10 = 7
          \/ n mod 10 = 8 \/ n mod 10 = 9) as D by lia.
  repeat (destruct D as [-> | D]; [reflexivity |]). rewrite D. reflexivity.
Qed.

Lemma digits_value_snoc (l : list ascii) (c : ascii) :
  digits_value (l ++ [c]) = 10 * digits_value l + digit_value c.
Proof. unfold digits_value. rewrite fold_left_app. reflexivity. Qed.

Lemma digits_value_zeros (k : nat) (l : list ascii) :
  digits_value (zeros k ++ l) = digits_value l.
Proof.
  unfold digits_value, zeros. rewrite fold_left_app. f_equal.
  induction k as [|k IH]; simpl; [reflexivity | exact IH].
Qed.

Lemma digits_fuel_acc (fuel : nat) : forall (n : Z) (acc : list ascii),
  digits_fuel fuel n acc = digits_fuel fuel n [] ++ acc.
Proof.
  induction fuel as [|fuel IH]; intros n acc; simpl; [reflexivity|].
  destruct (n <? 10); [reflexivity|].
  rewrite (IH _ (_ :: acc)), (IH _ [_]), <- app_assoc. reflexivity.
Qed.

Lemma digits_fuel_value (fuel : nat) : forall n : Z,
  0 <= n < 10 ^ Z.of_nat fuel -> digits_value (digits_fuel fuel n []) = n.
Proof.
  induction fuel as [|fuel IH]; intros n Hn.
  - simpl in *. change (10 ^ 0) with 1 in Hn. unfold digits_value. simpl. lia.
  - simpl digits_fuel. destruct (n <? 10) eqn:E.
    + apply Z.ltb_lt in E. unfold digits_value. simpl.
      rewrite digit_value_digit_char. rewrite Z.mod_small; lia.
    + apply Z.ltb_ge in E.
      rewrite digits_fuel_acc, digits_value_snoc, digit_value_digit_char, IH.
      * pose proof (Z.div_mod n 10). lia.
      * rewrite Nat2Z.inj_succ, Z.pow_succ_r in Hn by lia.
        split; [apply Z.div_pos; lia | apply Z.div_lt_upper_bound; lia].
Qed.

Lemma decimal_digits_value (n : Z) : 0 <= n -> digits_value (decimal_digits n) = n.
Proof.
  intros Hn. apply digits_fuel_value. split; [assumption|].
  rewrite Nat2Z.inj_succ, Z2Nat.id by apply Z.log2_nonneg.
  destruct (Z.eq_dec n 0) as [-> | Hne]; [reflexivity|].
  pose proof (Z.log2_spec n ltac:(lia)) as [_ Hlt].
  eapply Z.lt_le_trans; [exact Hlt|].
  apply Z.pow_le_mono_l. lia.
Qed.

Lemma fixed_digits_value (n : Z) (f : nat) (a b : list ascii) :
  fixed_digits n f = (a, b) -> 0 <= n -> digits_value (a ++ b) = n.
Proof.
  unfold fixed_digits. intros E Hn. inversion E as [[Ha Hb]]; clear E.
  rewrite take_drop, digits_value_zeros. apply decimal_digits_value, Hn.
Qed.

(** ** Rounding to a fixed number of decimals *)

Lemma round_scaled_nearest (p q f : Z) :
  0 <= p -> 0 < q -> 0 <= f ->
  0 <= round_scaled p q f
  /\ 2 * Z.abs (p * 10 ^ f - round_scaled p q f * q) <= q.
Proof.
  intros Hp Hq Hf. unfold round_scaled.
  assert (0 <= 10 ^ f) by (apply Z.pow_nonneg; lia).
  set (P := p * 10 ^ f). assert (0 <= P) by (unfold P; nia).
  replace (2 * p * 10 ^ f) with (2 * P) by (unfold P; ring).
  pose proof (Z.div_mod (2 * P + q) (2 * q) ltac:(lia)) as Hdm.
  pose proof (Z.mod_pos_bound (2 * P + q) (2 * q) ltac:(lia)) as Hmod.
  split; [apply Z.div_pos; lia|]. lia.
Qed.

Lemma exact_fraction_pos (m : positive) (e : Z) :
  0 < exact_num m e /\ 0 < exact_den e.
Proof.
  unfold exact_num, exact_den. destruct (0 <=? e) eqn:E.
  - apply Z.leb_le in E. pose proof (Z.pow_pos_nonneg 2 e ltac:(lia) E). nia.
  - apply Z.leb_gt in E. pose proof (Z.pow_pos_nonneg 2 (- e) ltac:(lia) ltac:(lia)). lia.
Qed.

Lemma toFixed_total (y : float) (f : Z) :
  0 <= f <= 100 -> exists s, toFixed y f = Normal s.
Proof.
  intros Hf. unfold toFixed.
  decide_comparisons. cbn [orb].
  destruct (Prim2SF y) as [| | |negative m e]; eauto.
  destruct (10 ^ 21 * exact_den e <=? exact_num m e); eauto.
Qed.

(** Below 10^21 toFixed prints the nearest decimal with [f] digits after
    the point. *)
Lemma toFixed_rounded (y : float) (f : Z) (s : string) :
  1 <= f <= 100 -> below_1e21 y = true -> toFixed y f = Normal s ->
  rounded_to (Z.to_nat f) y s.
Proof.
  intros Hf Hy. unfold rounded_to, toFixed, below_1e21, magnitude in *.
  decide_comparisons. cbn [orb].
  destruct (Prim2SF y) as [z| | |negative m e]; try discriminate.
  - destruct (fixed_digits 0 (Z.to_nat f)) as [a b] eqn:E. intros [= <-].
    pose proof (fixed_digits_value _ _ _ _ E ltac:(lia)) as Hv.
    apply fixed_digits_spec in E as (Ha & Hb & Hda & Hdb).
    exists false, 0, 1, a, b. rewrite chars_text, Hv.
    repeat split; try assumption; try lia.
    + destruct b; [simpl in Hb; lia | reflexivity].
    + apply Forall_app; split; assumption.
  - destruct (exact_fraction_pos m e) as [Hp Hq].
    decide_comparisons.
    destruct (round_scaled_nearest (exact_num m e) (exact_den e) f) as [Hn Hnear];
      try lia.
    destruct (fixed_digits _ (Z.to_nat f)) as [a b] eqn:E. intros [= <-].
    pose proof (fixed_digits_value _ _ _ _ E Hn) as Hv.
    apply fixed_digits_spec in E as (Ha & Hb & Hda & Hdb).
    exists negative, (exact_num m e), (exact_den e), a, b.
    rewrite chars_text, Hv, Z2Nat.id by lia.
    repeat split; try assumption; try lia.
    + destruct b; [simpl in Hb; lia | reflexivity].
    + apply Forall_app; split; assumption.
Qed.

(** ** C7: formatoCompacto *)

Lemma compact_as_toFixed (x unit : float) (suffix : string) :
  compact_as x unit suffix (s ← toFixed (x / unit)%float 1; mret (s +:+ suffix)).
Proof.
  destruct (toFixed_total (x / unit)%float 1 ltac:(lia)) as [s Hs].
  exists s. rewrite Hs. repeat split.
  intros Hy. apply (toFixed_rounded _ 1 s); [lia | exact Hy | exact Hs].
Qed.

(** C7: formatoCompacto tests its thresholds from the largest down and the
    first that holds decides: from 1,000,000,000 the value divided by 1e9
    and printed by toFixed(1) with "B", from 1,000,000 the same with 1e6 and
    "M", from 1,000 with 1e3 and "K", and otherwise the plain
    Number-to-string rendering.  The suffixed forms carry one decimal after
    a "." (the nearest tenth of the quotient).  formatoCompacto(1500) =
    "1.5K", formatoCompacto(2500000) = "2.5M", formatoCompacto(999) = "999". *)
Theorem formatoCompacto_thresholds :
  (forall numero : JsValue,
     let x := or_zero (parseFloat numero) in
     ((1000000000 <=? x)%float = true ->
      compact_as x 1000000000 "B" (formatoCompacto numero))
     /\ ((1000000000 <=? x)%float = false -> (1000000 <=? x)%float = true ->
         compact_as x 1000000 "M" (formatoCompacto numero))
     /\ ((1000000000 <=? x)%float = false -> (1000000 <=? x)%float = false ->
         (1000 <=? x)%float = true ->
         compact_as x 1000 "K" (formatoCompacto numero))
     /\ ((1000000000 <=? x)%float = false -> (1000000 <=? x)%float = false ->
         (1000 <=? x)%float = false ->
         formatoCompacto numero = Normal (NumberToString x)))
  /\ formatoCompacto (VNumber 1500) = Normal "1.5K"%string
  /\ formatoCompacto (VNumber 2500000) = Normal "2.5M"%string
  /\ formatoCompacto (VNumber 999) = Normal "999"%string.
Proof.
  split; [| repeat split; vm_compute; reflexivity].
  intros numero x.
  assert (forall unit suffix,
            compact_as x unit suffix
              (try_catch (s ← toFixed (x / unit)%float 1; mret (s +:+ suffix))
                         (fun _ => Normal "0"%string))) as Hbranch.
  { intros unit suffix.
    destruct (compact_as_toFixed x unit suffix) as (s & Hs & Hr & Hround).
    exists s. rewrite Hr. repeat split; assumption. }
  unfold formatoCompacto. fold x.
  repeat split.
  - intros ->. apply Hbranch.
  - intros -> ->. apply Hbranch.
  - intros -> -> ->. apply Hbranch.
  - intros -> -> ->. reflexivity.
Qed.

Lemma formatoCompacto_thresholds_witness :
  let x := or_zero (parseFloat (VString "1500")) in
  compact_as x 1000 "K" (formatoCompacto (VString "1500")).
Proof.
  intros x.
  apply (proj1 formatoCompacto_thresholds (VString "1500")); vm_compute; reflexivity.
Defined.

(** Past 10^21 toFixed itself falls back to the exponent form of
    Number::toString, and an infinite quotient prints as "Infinity". *)
Example formatoCompacto_huge :
  formatoCompacto (VNumber 1e30) = Normal "1e+21B"%string
  /\ formatoCompacto (VString "Infinity") = Normal "InfinityB"%string
  /\ formatoCompacto (VNumber (-5000)) = Normal "-5000"%string.
Proof. repeat split; vm_compute; reflexivity. Qed.

(** * Further properties of the module *)

(** ** Digit counts outside 0..100 *)

(** X1: formatoPorcentaje has no guard on its digit count: a count below 0
    or above 100 is rejected by the locale primitive, the exception is
    caught and the result is "0%", whatever the value. *)
Theorem formatoPorcentaje_rejected_digit_count (numero : JsValue) (decimales : Z) :
  decimales < 0 \/ 100 < decimales ->
  formatoPorcentaje numero (Some decimales) = Normal "0%"%string.
Proof.
  intros H. unfold formatoPorcentaje, toLocaleString_es_CO. simpl.
  destruct (decimales <? 0) eqn:E; [reflexivity|].
  replace (100 <? decimales) with true by lia. reflexivity.
Qed.

Lemma formatoPorcentaje_rejected_digit_count_witness :
  formatoPorcentaje (VNumber 0.5) (Some (-1)) = Normal "0%"%string.
Proof.
  apply (formatoPorcentaje_rejected_digit_count (VNumber 0.5) (-1)). lia.
Defined.

(** X2: formatoMoneda hands its digit count to formatoNumero as it is: above
    100 the amount is lost and the result is the symbol followed by "0";
    at zero or below the amount is printed without decimals. *)
Theorem formatoMoneda_any_digit_count (numero : JsValue) (simbolo : string)
    (decimales : Z) :
  (100 < decimales ->
   formatoMoneda numero (Some simbolo) (Some decimales) = Normal (simbolo +:+ "0"))
  /\ (decimales <= 0 ->
      formatoMoneda numero (Some simbolo) (Some decimales)
      = formatoMoneda numero (Some simbolo) None).
Proof.
  split; intros H; unfold formatoMoneda, formatoNumero, toLocaleString_es_CO; simpl.
  - decide_comparisons. reflexivity.
  - decide_comparisons. reflexivity.
Qed.

Lemma formatoMoneda_any_digit_count_witness :
  formatoMoneda (VNumber 1500000) (Some "$"%string) (Some 101) = Normal "$0"%string
  /\ formatoMoneda (VNumber 1500000) (Some "$"%string) (Some (-2))
     = formatoMoneda (VNumber 1500000) (Some "$"%string) None.
Proof.
  split.
  - apply (formatoMoneda_any_digit_count (VNumber 1500000) "$" 101). lia.
  - apply (formatoMoneda_any_digit_count (VNumber 1500000) "$" (-2)). lia.
Defined.

(** ** Negative values *)

Lemma below_zero_comparisons (x : float) :
  below_zero x = true ->
  (x <? 1)%float = true
  /\ (1000000000 <=? x)%float = false
  /\ (1000000 <=? x)%float = false
  /\ (1000 <=? x)%float = false.
Proof.
  unfold below_zero. intros H.
  rewrite ltb_spec, !leb_spec.
  destruct (Prim2SF x) as [| [] | | [] m e]; try discriminate H;
    repeat split; reflexivity.
Qed.

(** X3: formatoCompacto never abbreviates a value below zero: every
    threshold test fails and the value is printed by Number::toString in
    full, with no suffix. *)
Theorem formatoCompacto_below_zero (numero : JsValue) :
  below_zero (or_zero (parseFloat numero)) = true ->
  formatoCompacto numero = Normal (NumberToString (or_zero (parseFloat numero))).
Proof.
  intros H. apply below_zero_comparisons in H as (_ & H9 & H6 & H3).
  unfold formatoCompacto. rewrite H9, H6, H3. reflexivity.
Qed.

Lemma formatoCompacto_below_zero_witness :
  formatoCompacto (VNumber (-2500000))
  = Normal (NumberToString (or_zero (parseFloat (VNumber (-2500000))))).
Proof.
  apply (formatoCompacto_below_zero (VNumber (-2500000))). vm_compute. reflexivity.
Defined.

(** X4: formatoPorcentaje takes every value below zero for a fraction: it
    is multiplied by 100 before it is printed (so -5 prints as -500%). *)
Theorem formatoPorcentaje_below_zero (numero : JsValue) (d : Z) :
  below_zero (or_zero (parseFloat numero)) = true -> 0 <= d <= 100 ->
  exists s,
    toLocaleString_es_CO (or_zero (parseFloat numero) * 100)%float d d = Normal s
    /\ formatoPorcentaje numero (Some d) = Normal (s +:+ "%").
Proof.
  intros H Hd. apply below_zero_comparisons in H as (H1 & _).
  destruct (toLocaleString_es_CO_total (or_zero (parseFloat numero) * 100)%float d Hd)
    as [s Hs].
  exists s. split; [exact Hs|].
  unfold formatoPorcentaje. simpl. rewrite H1, Hs. reflexivity.
Qed.

Lemma formatoPorcentaje_below_zero_witness :
  exists s,
    toLocaleString_es_CO (or_zero (parseFloat (VNumber (-5))) * 100)%float 0 0 = Normal s
    /\ formatoPorcentaje (VNumber (-5)) (Some 0) = Normal (s +:+ "%").
Proof.
  apply (formatoPorcentaje_below_zero (VNumber (-5)) 0); [vm_compute; reflexivity | lia].
Defined.

Example below_zero_examples :
  formatoCompacto (VNumber (-2500000)) = Normal "-2500000"%string
  /\ formatoPorcentaje (VNumber (-5)) (Some 0) = Normal "-500%"%string.
Proof. split; vm_compute; reflexivity. Qed.

(** ** What the pass writes *)

Lemma formatearElemento_attributes (elemento elemento' : Element) :
  formatearElemento elemento = Normal elemento' ->
  attributes elemento' = attributes elemento.
Proof.
  unfold formatearElemento.
  set (valor := VNumber _). set (decimales := Some _).
  repeat case_match.
  - destruct (formatoNumero valor decimales); simpl; intros [= <-]; reflexivity.
  - destruct (formatoMoneda valor _ decimales); simpl; intros [= <-]; reflexivity.
  - destruct (formatoPorcentaje valor decimales); simpl; intros [= <-]; reflexivity.
  - destruct (formatoCompacto valor); simpl; intros [= <-]; reflexivity.
  - intros [= <-]. reflexivity.
Qed.

Lemma formateado_attributes (elemento : Element) :
  attributes (formateado elemento) = attributes elemento.
Proof. apply formatearElemento_attributes, formatearElemento_formateado. Qed.

(** What the pass makes of an element of each recognized mode. *)
Lemma formateado_numero (elemento : Element) (s : string) :
  getAttribute elemento "data-format" = Some "numero"%string ->
  formatoNumero (VNumber (or_zero (parseFloat (VString (textContent elemento)))))
                (Some (default 0 (parseInt (getAttribute elemento "data-decimales"))))
  = Normal s ->
  formateado elemento = set_textContent elemento s.
Proof.
  intros Hf Hs. unfold formateado, formatearElemento. rewrite Hf.
  cbn -[formatoNumero formatoMoneda formatoPorcentaje formatoCompacto
        or_zero parseFloat parseInt or_dollar].
  rewrite Hs. reflexivity.
Qed.

Lemma formateado_moneda (elemento : Element) (s : string) :
  getAttribute elemento "data-format" = Some "moneda"%string ->
  formatoMoneda (VNumber (or_zero (parseFloat (VString (textContent elemento)))))
                (Some (or_dollar (getAttribute elemento "data-simbolo")))
                (Some (default 0 (parseInt (getAttribute elemento "data-decimales"))))
  = Normal s ->
  formateado elemento = set_textContent elemento s.
Proof.
  intros Hf Hs. unfold formateado, formatearElemento. rewrite Hf.
  cbn -[formatoNumero formatoMoneda formatoPorcentaje formatoCompacto
        or_zero parseFloat parseInt or_dollar].
  rewrite Hs. reflexivity.
Qed.

Lemma formateado_porcentaje (elemento : Element) (s : string) :
  getAttribute elemento "data-format" = Some "porcentaje"%string ->
  formatoPorcentaje (VNumber (or_zero (parseFloat (VString (textContent elemento)))))
                    (Some (default 0 (parseInt (getAttribute elemento "data-decimales"))))
  = Normal s ->
  formateado elemento = set_textContent elemento s.
Proof.
  intros Hf Hs. unfold formateado, formatearElemento. rewrite Hf.
  cbn -[formatoNumero formatoMoneda formatoPorcentaje formatoCompacto
        or_zero parseFloat parseInt or_dollar].
  rewrite Hs. reflexivity.
Qed.

Lemma formateado_compacto (elemento : Element) (s : string) :
  getAttribute elemento "data-format" = Some "compacto"%string ->
  formatoCompacto (VNumber (or_zero (parseFloat (VString (textContent elemento)))))
  = Normal s ->
  formateado elemento = set_textContent elemento s.
Proof.
  intros Hf Hs. unfold formateado, formatearElemento. rewrite Hf.
  cbn -[formatoNumero formatoMoneda formatoPorcentaje formatoCompacto
        or_zero parseFloat parseInt or_dollar].
  rewrite Hs. reflexivity.
Qed.

Lemma pass_lookup (document : list Element) (i : nat) (elemento : Element) :
  document !! i = Some elemento ->
  (formateado <$> document) !! i = Some (formateado elemento).
Proof. intros Hi. rewrite list_lookup_fmap, Hi. reflexivity. Qed.

(** X6: in the pass a text that is not a number stands for 0: with no
    data-decimales the element reads "0" (numero and compacto), the symbol
    followed by "0" (moneda) or "0%" (porcentaje). *)
Theorem pass_non_numeric_text (document : list Element) (i : nat)
    (elemento : Element) :
  document !! i = Some elemento ->
  non_numeric (VString (textContent elemento)) = true ->
  parseInt (getAttribute elemento "data-decimales") = None ->
  exists document',
    formatearElementos document = Normal document'
    /\ (getAttribute elemento "data-format" = Some "numero"%string ->
        document' !! i = Some (set_textContent elemento "0"))
    /\ (getAttribute elemento "data-format" = Some "moneda"%string ->
        document' !! i
        = Some (set_textContent elemento
                  (or_dollar (getAttribute elemento "data-simbolo") +:+ "0")))
    /\ (getAttribute elemento "data-format" = Some "porcentaje"%string ->
        document' !! i = Some (set_textContent elemento "0%"))
    /\ (getAttribute elemento "data-format" = Some "compacto"%string ->
        document' !! i = Some (set_textContent elemento "0")).
Proof.
  intros Hi Hn Hd. apply or_zero_non_numeric in Hn.
  exists (formateado <$> document).
  split; [apply formatearElementos_fmap|].
  rewrite (pass_lookup _ _ _ Hi).
  repeat split; intros Hf; f_equal.
  - apply formateado_numero; [exact Hf|]. rewrite Hn, Hd. reflexivity.
  - apply formateado_moneda; [exact Hf|]. rewrite Hn, Hd. reflexivity.
  - apply formateado_porcentaje; [exact Hf|]. rewrite Hn, Hd. reflexivity.
  - apply formateado_compacto; [exact Hf|]. rewrite Hn. reflexivity.
Qed.

Lemma pass_non_numeric_text_witness :
  let elemento :=
    mkElement {[ "data-format"%string := "porcentaje"%string ]} "sin dato" in
  exists document',
    formatearElementos [elemento] = Normal document'
    /\ document' !! 0%nat = Some (set_textContent elemento "0%").
Proof.
  intros elemento.
  destruct (pass_non_numeric_text [elemento] 0 elemento)
    as (document' & Hpass & _ & _ & Hp & _).
  - reflexivity.
  - vm_compute. reflexivity.
  - vm_compute. reflexivity.
  - exists document'. split; [exact Hpass|]. apply Hp. vm_compute. reflexivity.
Defined.

(** ** Running the pass twice *)

Lemma parseFloat_dollar (r : string) :
  parseFloat (VString ("$" +:+ r)) = nan.
Proof.
  unfold parseFloat, ToString, parseFloat_string. rewrite chars_app.
  change (chars "$" ++ chars r) with ("$"%char :: chars r).
  rewrite trim_start_plain by (reflexivity || (vm_compute; reflexivity)).
  reflexivity.
Qed.

(** X7: the pass is not to be run twice on amounts: the first run leaves
    the symbol in front of the number, so the second run reads no number at
    all and prints every "moneda" element with the default symbol as
    formatoMoneda(0), whatever its amount was. *)
Theorem second_pass_loses_amounts (document : list Element) (i : nat)
    (elemento : Element) :
  document !! i = Some elemento ->
  getAttribute elemento "data-format" = Some "moneda"%string ->
  or_dollar (getAttribute elemento "data-simbolo") = "$"%string ->
  let decimales := default 0 (parseInt (getAttribute elemento "data-decimales")) in
  exists (once twice : list Element) (cero : string),
    formatearElementos document = Normal once
    /\ formatearElementos once = Normal twice
    /\ formatoMoneda (VNumber 0) None (Some decimales) = Normal cero
    /\ twice !! i = Some (set_textContent elemento cero).
Proof.
  intros Hi Hf Hs decimales.
  set (valor := VNumber (or_zero (parseFloat (VString (textContent elemento))))).
  destruct (formatoNumero_total valor (Some decimales)) as [r Hr].
  destruct (formatoNumero_total (VNumber 0) (Some decimales)) as [r0 Hr0].
  assert (formateado elemento = set_textContent elemento ("$" +:+ r)) as Hfirst.
  { apply formateado_moneda; [exact Hf|]. rewrite Hs. fold valor. fold decimales.
    unfold formatoMoneda. simpl. rewrite Hr. reflexivity. }
  exists (formateado <$> document), (formateado <$> (formateado <$> document)),
         ("$" +:+ r0).
  split; [apply formatearElementos_fmap|].
  split; [apply formatearElementos_fmap|].
  split; [unfold formatoMoneda; simpl; rewrite Hr0; reflexivity|].
  rewrite (pass_lookup _ _ _ (pass_lookup _ _ _ Hi)), Hfirst. f_equal.
  rewrite (formateado_moneda _ ("$" +:+ r0)); [reflexivity | exact Hf |].
  unfold getAttribute, set_textContent in *. cbn [attributes textContent].
  rewrite Hs. fold decimales. rewrite parseFloat_dollar.
  change (or_zero nan) with 0%float.
  unfold formatoMoneda. cbn [default from_option id]. rewrite Hr0. reflexivity.
Qed.

Lemma second_pass_loses_amounts_witness :
  let elemento :=
    mkElement {[ "data-format"%string := "moneda"%string ]} "1500000" in
  exists (once twice : list Element) (cero : string),
    formatearElementos [elemento] = Normal once
    /\ formatearElementos once = Normal twice
    /\ formatoMoneda (VNumber 0) None (Some 0) = Normal cero
    /\ twice !! 0%nat = Some (set_textContent elemento cero).
Proof.
  intros elemento.
  apply (second_pass_loses_amounts [elemento] 0 elemento); vm_compute; reflexivity.
Defined.

Example second_pass_example :
  let elemento :=
    mkElement {[ "data-format"%string := "moneda"%string ]} "1500000" in
  map textContent (formateado <$> [elemento]) = ["$1.500.000"%string]
  /\ map textContent (formateado <$> (formateado <$> [elemento])) = ["$0"%string].
Proof. split; vm_compute; reflexivity. Qed.

(** ** The attributes of the pass *)

(** X8: an element marked "numero" whose data-decimales gives a count from
    0 to 100 (or is missing, which counts as 0) and whose text reads as a
    finite number ends as a grouped number with exactly that many
    decimals. *)
Theorem pass_numero_grouped (document : list Element) (i : nat)
    (elemento : Element) :
  document !! i = Some elemento ->
  getAttribute elemento "data-format" = Some "numero"%string ->
  let decimales := default 0 (parseInt (getAttribute elemento "data-decimales")) in
  0 <= decimales <= 100 ->
  finite (or_zero (parseFloat (VString (textContent elemento)))) = true ->
  exists (document' : list Element) (s : string),
    formatearElementos document = Normal document'
    /\ document' !! i = Some (set_textContent elemento s)
    /\ grouped_shape (Z.to_nat decimales) s.
Proof.
  intros Hi Hf decimales Hd Hfin.
  set (valor := or_zero (parseFloat (VString (textContent elemento)))) in *.
  destruct (toLocaleString_es_CO_shape valor decimales Hfin Hd) as (s & Hs & Hshape).
  exists (formateado <$> document), s.
  split; [apply formatearElementos_fmap|]. split; [|exact Hshape].
  rewrite (pass_lookup _ _ _ Hi). f_equal.
  apply formateado_numero; [exact Hf|]. fold valor. fold decimales.
  rewrite formatoNumero_in_range, or_zero_number by exact Hd.
  assert (or_zero valor = valor) as ->.
  { unfold valor, or_zero.
    destruct (Prim2SF (parseFloat (VString (textContent elemento)))) eqn:E;
      rewrite ?E; reflexivity. }
  rewrite Hs. reflexivity.
Qed.

Lemma pass_numero_grouped_witness :
  let elemento :=
    mkElement (<[ "data-decimales"%string := "2"%string ]>
                 {[ "data-format"%string := "numero"%string ]}) "1234.5 kg" in
  exists (document' : list Element) (s : string),
    formatearElementos [elemento] = Normal document'
    /\ document' !! 0%nat = Some (set_textContent elemento s)
    /\ grouped_shape 2 s.
Proof.
  intros elemento.
  apply (pass_numero_grouped [elemento] 0 elemento); vm_compute;
    try reflexivity; split; discriminate.
Defined.

(** X9: a data-decimales above 100 costs the element its value: "numero"
    ends as "0", "moneda" as the symbol followed by "0"; and "porcentaje",
    which has no guard, ends as "0%" for a count above 100 or below 0. *)
Theorem pass_rejected_decimales (document : list Element) (i : nat)
    (elemento : Element) (decimales : Z) :
  document !! i = Some elemento ->
  parseInt (getAttribute elemento "data-decimales") = Some decimales ->
  exists document',
    formatearElementos document = Normal document'
    /\ (100 < decimales ->
        getAttribute elemento "data-format" = Some "numero"%string ->
        document' !! i = Some (set_textContent elemento "0"))
    /\ (100 < decimales ->
        getAttribute elemento "data-format" = Some "moneda"%string ->
        document' !! i
        = Some (set_textContent elemento
                  (or_dollar (getAttribute elemento "data-simbolo") +:+ "0")))
    /\ (decimales < 0 \/ 100 < decimales ->
        getAttribute elemento "data-format" = Some "porcentaje"%string ->
        document' !! i = Some (set_textContent elemento "0%")).
Proof.
  intros Hi Hd. exists (formateado <$> document).
  split; [apply formatearElementos_fmap|].
  rewrite (pass_lookup _ _ _ Hi).
  repeat split; intros Hrange Hf; f_equal.
  - apply formateado_numero; [exact Hf|]. rewrite Hd.
    unfold formatoNumero, toLocaleString_es_CO. simpl.
    decide_comparisons. reflexivity.
  - apply formateado_moneda; [exact Hf|]. rewrite Hd.
    unfold formatoMoneda, formatoNumero, toLocaleString_es_CO. simpl.
    decide_comparisons. reflexivity.
  - apply formateado_porcentaje; [exact Hf|]. rewrite Hd.
    unfold formatoPorcentaje, toLocaleString_es_CO. simpl.
    destruct (decimales <? 0) eqn:E; [reflexivity|].
    replace (100 <? decimales) with true by lia. reflexivity.
Qed.

Lemma pass_rejected_decimales_witness :
  let elemento :=
    mkElement (<[ "data-decimales"%string := "-1"%string ]>
                 {[ "data-format"%string := "porcentaje"%string ]}) "0.85" in
  exists document',
    formatearElementos [elemento] = Normal document'
    /\ document' !! 0%nat = Some (set_textContent elemento "0%").
Proof.
  intros elemento.
  destruct (pass_rejected_decimales [elemento] 0 elemento (-1))
    as (document' & Hpass & _ & _ & Hp).
  - reflexivity.
  - vm_compute. reflexivity.
  - exists document'. split; [exact Hpass|].
    apply Hp; [lia | vm_compute; reflexivity].
Defined.

(** X10: a "moneda" element whose data-simbolo attribute is missing or
    empty is printed with "$" in front of formatoNumero's result. *)
Theorem pass_default_symbol (document : list Element) (i : nat)
    (elemento : Element) :
  document !! i = Some elemento ->
  getAttribute elemento "data-format" = Some "moneda"%string ->
  getAttribute elemento "data-simbolo" = None
  \/ getAttribute elemento "data-simbolo" = Some ""%string ->
  exists (document' : list Element) (r : string),
    formatearElementos document = Normal document'
    /\ formatoNumero (VNumber (or_zero (parseFloat (VString (textContent elemento)))))
         (Some (default 0 (parseInt (getAttribute elemento "data-decimales"))))
       = Normal r
    /\ document' !! i = Some (set_textContent elemento ("$" +:+ r)).
Proof.
  intros Hi Hf Hs.
  set (valor := VNumber (or_zero (parseFloat (VString (textContent elemento))))).
  set (decimales := default 0 (parseInt (getAttribute elemento "data-decimales"))).
  destruct (formatoNumero_total valor (Some decimales)) as [r Hr].
  exists (formateado <$> document), r.
  split; [apply formatearElementos_fmap|]. split; [exact Hr|].
  rewrite (pass_lookup _ _ _ Hi). f_equal.
  apply formateado_moneda; [exact Hf|]. fold valor. fold decimales.
  assert (or_dollar (getAttribute elemento "data-simbolo") = "$"%string) as ->
    by (destruct Hs as [-> | ->]; reflexivity).
  unfold formatoMoneda. simpl. rewrite Hr. reflexivity.
Qed.

Lemma pass_default_symbol_witness :
  let elemento :=
    mkElement (<[ "data-simbolo"%string := ""%string ]>
                 {[ "data-format"%string := "moneda"%string ]}) "1500000" in
  exists (document' : list Element) (r : string),
    formatearElementos [elemento] = Normal document'
    /\ formatoNumero (VNumber (or_zero (parseFloat (VString "1500000")))) (Some 0)
       = Normal r
    /\ document' !! 0%nat = Some (set_textContent elemento ("$" +:+ r)).
Proof.
  intros elemento.
  apply (pass_default_symbol [elemento] 0 elemento);
    [reflexivity | vm_compute; reflexivity | right; vm_compute; reflexivity].
Defined.

(** * The template checker *)

Section VerificarDia7Facts.

Variable match_count : string -> string -> nat.
Variable files : gmap string (list string).

(** The script as a function of its eight test results. *)
Lemma verificar_dia7_resumen :
  verificar_dia7 match_count files
  = resumen_de
      [ Check_File match_count files "templates\auth\login.html" autocomplete_off;
        Check_File match_count files "templates\auth\test_ldap.html" autocomplete_off;
        Check_File match_count files "templates\usuarios\crear.html" autocomplete_off;
        Check_Count match_count files "templates\usuarios\editar.html" autocomplete_off 2;
        Check_Count match_count files "templates\usuarios\gestionar.html" autocomplete_off 3;
        Check_File match_count files "templates\confirmacion\confirmar.html"
                   noopener_noreferrer;
        Check_File match_count files "templates\reportes\inventario_corporativo.html"
                   noopener_noreferrer;
        Check_File match_count files "templates\reportes\oficinas.html"
                   noopener_noreferrer ].
Proof. reflexivity. Qed.

End VerificarDia7Facts.

Lemma resumen_de_eight (b1 b2 b3 b4 b5 b6 b7 b8 : bool) :
  let r := resumen_de [b1; b2; b3; b4; b5; b6; b7; b8] in
  tests_passed r + tests_failed r = total_tests
  /\ 0 <= tests_passed r
  /\ 0 <= tests_failed r
  /\ nth_error [0; 12; 25; 38; 50; 62; 75; 88; 100] (Z.to_nat (tests_passed r))
     = Some (percentage r)
  /\ (exit_code r = 0 <-> tests_failed r = 0)
  /\ (exit_code r = 0 \/ exit_code r = 1)
  /\ (percentage r = 100 <-> tests_failed r = 0)
  /\ percentage r <= 100
  /\ (tests_failed r = 0 <-> [b1; b2; b3; b4; b5; b6; b7; b8] = repeat true 8).
Proof.
  destruct b1, b2, b3, b4, b5, b6, b7, b8; vm_compute;
    repeat split; intros; try discriminate; try reflexivity; auto.
Qed.

(** X11: whatever the files hold, the script's counters add up to its
    hard-coded total of 8 tests; the percentage it prints is
    0, 12, 25, 38, 50, 62, 75, 88 or 100 for 0 to 8 passed tests (halves
    round to the even integer) and is 100 exactly when no test failed; and
    the exit code is 0 exactly when no test failed, 1 otherwise. *)
Theorem verificar_dia7_summary (match_count : string -> string -> nat)
    (files : gmap string (list string)) :
  let r := verificar_dia7 match_count files in
  tests_passed r + tests_failed r = total_tests
  /\ 0 <= tests_passed r
  /\ 0 <= tests_failed r
  /\ nth_error [0; 12; 25; 38; 50; 62; 75; 88; 100] (Z.to_nat (tests_passed r))
     = Some (percentage r)
  /\ (percentage r = 100 <-> tests_failed r = 0)
  /\ percentage r <= 100
  /\ (exit_code r = 0 <-> tests_failed r = 0)
  /\ (exit_code r = 0 \/ exit_code r = 1).
Proof.
  rewrite verificar_dia7_resumen.
  match goal with
  | |- context [resumen_de [?b1; ?b2; ?b3; ?b4; ?b5; ?b6; ?b7; ?b8]] =>
      destruct (resumen_de_eight b1 b2 b3 b4 b5 b6 b7 b8)
        as (Hsum & Hp & Hf & Hpct & Hexit & Hcode & H100 & Hle & _)
  end.
  repeat split; try assumption; try apply Hexit; try apply H100.
Qed.

Lemma Check_File_missing (match_count : string -> string -> nat)
    (files : gmap string (list string)) (file pattern : string) :
  files !! file = None -> Check_File match_count files file pattern = false.
Proof.
  intros H. unfold Check_File, Test_Path. rewrite H.
  rewrite bool_decide_eq_false_2; [reflexivity|]. intros [? ?]. discriminate.
Qed.

Lemma Check_Count_missing (match_count : string -> string -> nat)
    (files : gmap string (list string)) (file pattern : string) (minimum : nat) :
  files !! file = None -> Check_Count match_count files file pattern minimum = false.
Proof.
  intros H. unfold Check_Count, Test_Path. rewrite H.
  rewrite bool_decide_eq_false_2; [reflexivity|]. intros [? ?]. discriminate.
Qed.

(** X12: a missing template is a failed test: when any one of the eight
    files does not exist the script exits with code 1 and prints a
    percentage below 100, whatever the other files hold. *)
Theorem verificar_dia7_missing_file (match_count : string -> string -> nat)
    (files : gmap string (list string)) (file : string) :
  file ∈ archivos -> files !! file = None ->
  exit_code (verificar_dia7 match_count files) = 1
  /\ percentage (verificar_dia7 match_count files) < 100.
Proof.
  intros Hin Hnone.
  assert (tests_failed (verificar_dia7 match_count files) <> 0) as Hfailed.
  { rewrite verificar_dia7_resumen.
    match goal with
    | |- context [resumen_de [?b1; ?b2; ?b3; ?b4; ?b5; ?b6; ?b7; ?b8]] =>
        destruct (resumen_de_eight b1 b2 b3 b4 b5 b6 b7 b8)
          as (_ & _ & _ & _ & _ & _ & _ & _ & Hall)
    end.
    intros H0. apply Hall in H0. clear Hall.
    unfold archivos in Hin.
    repeat (apply elem_of_cons in Hin as [-> | Hin];
            [ first [ rewrite (Check_File_missing _ _ _ _ Hnone) in H0
                    | rewrite (Check_Count_missing _ _ _ _ _ Hnone) in H0 ];
              discriminate H0 |]).
    apply elem_of_nil in Hin. exact Hin. }
  destruct (verificar_dia7_summary match_count files)
    as (_ & _ & _ & _ & H100 & Hle & Hexit & Hcode).
  split.
  - destruct Hcode as [H0 | H1]; [apply Hexit in H0; contradiction | exact H1].
  - assert (percentage (verificar_dia7 match_count files) <> 100)
      by (intros E; apply H100 in E; contradiction).
    lia.
Qed.

Lemma verificar_dia7_missing_file_witness :
  exit_code (verificar_dia7 (fun _ _ => 1%nat) ∅) = 1
  /\ percentage (verificar_dia7 (fun _ _ => 1%nat) ∅) < 100.
Proof.
  apply (verificar_dia7_missing_file (fun _ _ => 1%nat) ∅ "templates\auth\login.html").
  - apply list_elem_of_here.
  - apply lookup_empty.
Defined.
